(** * aioinject: instance stores, providers and resource unwinding

    A shallow embedding of [aioinject/_store.py], [aioinject/providers.py]
    and [aioinject/_utils.py], together with the part of the standard
    library's [contextlib] ([ExitStack], [AsyncExitStack]) the stores
    delegate to.

    Conventions.
    - A Python call that may raise returns an [Outcome].
    - Code that mutates an object takes the object's state and returns the
      new one next to its result.
    - Type objects used as dictionary keys are an arbitrary countable
      type [K]; annotation objects inspected at registration are [Ann]. *)

From stdpp Require Import gmap strings list.

Set Implicit Arguments.

(** ** Python values *)

Module Py.

(** An exception object.  [exc_id] stands for the identity of the object
    (what [is] compares); [exc_context] is its [__context__]. *)
#[local] Unset Elimination Schemes.

Inductive Exc : Type :=
  MkExc (exc_id : nat) (exc_class : string) (exc_msg : string)
        (exc_context : option Exc).

Definition exc_id (e : Exc) : nat := let 'MkExc i _ _ _ := e in i.
Definition exc_class (e : Exc) : string := let 'MkExc _ c _ _ := e in c.
Definition exc_msg (e : Exc) : string := let 'MkExc _ _ m _ := e in m.
Definition exc_context (e : Exc) : option Exc := let 'MkExc _ _ _ c := e in c.

(** [a is b] on optional exception objects ([None] is a singleton). *)
Definition is_ (a b : option Exc) : bool :=
  match a, b with
  | None, None => true
  | Some x, Some y => Nat.eqb (exc_id x) (exc_id y)
  | _, _ => false
  end.

(** The identities found along the [__context__] chain of an exception,
    the exception itself first. *)
Fixpoint chain (e : Exc) : list nat :=
  match e with
  | MkExc i _ _ None => [i]
  | MkExc i _ _ (Some c) => i :: chain c
  end.

(** The result of evaluating a call. *)
Inductive Outcome (A : Type) : Type :=
| Return (a : A)
| Raise (e : Exc).
Arguments Return {A} a.
Arguments Raise {A} e.

(** The two methods of the (async) context-manager protocol, as seen by a
    caller: what entering evaluates to, and what leaving evaluates to given
    the exception details it is handed ([None] for [(None, None, None)]).
    The returned boolean is the truth value of what [__exit__] returns. *)
Record Protocol (V : Type) : Type := MkProtocol {
  on_enter : Outcome V;
  on_exit : option Exc -> Outcome bool;
}.

(** Objects handed around by the container. *)
Inductive Value : Type :=
| Plain (ident : nat)
    (* an object without context-manager behaviour *)
| Coroutine (of_fn : nat)
    (* the coroutine object a call of an [async def] function returns *)
| Manager (ident : nat)
          (context_decorator : bool)
            (* isinstance(_, contextlib.ContextDecorator) *)
          (async_context_decorator : bool)
            (* isinstance(_, contextlib.AsyncContextDecorator) *)
          (sync_cm : option (Protocol Value))
            (* the type defines __enter__ and __exit__ *)
          (async_cm : option (Protocol Value)).
            (* the type defines __aenter__ and __aexit__ *)

#[local] Set Elimination Schemes.

Definition ident_of (v : Value) : nat :=
  match v with
  | Plain i => i
  | Coroutine i => i
  | Manager i _ _ _ _ => i
  end.

Definition isinstance_ContextDecorator (v : Value) : bool :=
  match v with
  | Manager _ b _ _ _ => b
  | _ => false
  end.

Definition isinstance_AsyncContextDecorator (v : Value) : bool :=
  match v with
  | Manager _ _ b _ _ => b
  | _ => false
  end.

Definition sync_protocol (v : Value) : option (Protocol Value) :=
  match v with
  | Manager _ _ _ p _ => p
  | _ => None
  end.

Definition async_protocol (v : Value) : option (Protocol Value) :=
  match v with
  | Manager _ _ _ _ p => p
  | _ => None
  end.

(** What [contextlib.contextmanager] hands out: a
    [_GeneratorContextManager], which derives from [ContextDecorator]. *)
Definition generator_cm (i : nat) (p : Protocol Value) : Value :=
  Manager i true false (Some p) None.

(** What [contextlib.asynccontextmanager] hands out. *)
Definition async_generator_cm (i : nat) (p : Protocol Value) : Value :=
  Manager i false true None (Some p).

(** A class that only implements [__enter__] and [__exit__]. *)
Definition plain_cm (i : nat) (p : Protocol Value) : Value :=
  Manager i false false (Some p) None.

End Py.
Export Py.

(** ** aioinject/providers.py *)

Module Providers.

(** *** Annotation objects

    What [typing.get_origin] and [typing.get_args] tell apart. *)

Inductive Origin : Type :=
| OGenerator        (* collections.abc.Generator *)
| OIterator         (* collections.abc.Iterator *)
| OAsyncGenerator   (* collections.abc.AsyncGenerator *)
| OAsyncIterator    (* collections.abc.AsyncIterator *)
| OAnnotated        (* typing.Annotated *)
| OOther (name : string) (is_class : bool).

#[local] Unset Elimination Schemes.

Inductive Ann : Type :=
| AClass (name : string)                      (* a class *)
| AAlias (origin : Origin) (args : list Ann)  (* origin[args] *)
| AAnnotated (base : Ann) (metadata : list Ann)
| AInjectClass                                (* the class Inject *)
| AInject (n : nat)                           (* an instance of Inject *)
| ASelf                                       (* typing.Self *)
| AStr (source : string).                     (* an unevaluated annotation *)

#[local] Set Elimination Schemes.

Definition get_origin (a : Ann) : option Origin :=
  match a with
  | AAlias o _ => Some o
  | AAnnotated _ _ => Some OAnnotated
  | _ => None
  end.

Definition get_args (a : Ann) : list Ann :=
  match a with
  | AAlias _ args => args
  | AAnnotated base metadata => base :: metadata
  | _ => []
  end.

Definition isclass_origin (o : Origin) : bool :=
  match o with
  | OAnnotated => false
  | OOther _ b => b
  | _ => true
  end.

Definition in_GENERATORS (o : Origin) : bool :=
  match o with OGenerator | OIterator => true | _ => false end.

Definition in_ASYNC_GENERATORS (o : Origin) : bool :=
  match o with OAsyncGenerator | OAsyncIterator => true | _ => false end.

Definition is_Self (a : Ann) : bool :=
  match a with ASelf => true | _ => false end.

(** *** Dependencies *)

Record Dependency : Type := MkDependency {
  name : string;
  dep_type_ : Ann;
}.

(** [_get_annotation_args]: the starred unpacking raises [ValueError] on an
    empty tuple, which the function turns into [(type_hint, [])]. *)
Definition _get_annotation_args (type_hint : Ann) : Ann * list Ann :=
  match get_args type_hint with
  | dep_type :: args => (dep_type, args)
  | [] => (type_hint, [])
  end.

(** [_find_inject_marker_in_annotation_args]: the first argument that is
    the class [Inject] (a fresh [Inject()], written [AInject 0]) or an
    instance of it. *)
Fixpoint _find_inject_marker_in_annotation_args (args : list Ann)
  : option Ann :=
  match args with
  | [] => None
  | AInjectClass :: _ => Some (AInject 0)
  | AInject n :: _ => Some (AInject n)
  | _ :: rest => _find_inject_marker_in_annotation_args rest
  end.

(** [collect_dependencies] on a dictionary of type hints (the branch
    [Provider.collect_dependencies] takes).  A dictionary iterates in
    insertion order, so the hints are an association list. *)
Fixpoint collect_dependencies (type_hints : list (string * Ann))
  : list Dependency :=
  match type_hints with
  | [] => []
  | (name, hint) :: rest =>
      let '(dep_type, args) := _get_annotation_args hint in
      match _find_inject_marker_in_annotation_args args with
      | None => collect_dependencies rest
      | Some _ => MkDependency name dep_type :: collect_dependencies rest
      end
  end.

(** *** Factories

    [W] is the state a factory may read and update when its body runs
    (a call counter, an open connection, ...). *)

(** The result of resolving annotations, by the [except] clause of
    [_guess_return_type] that matches: the helpers either answer, raise an
    instance of [NameError], raise an instance of [KeyError], or raise
    something else. *)
Inductive Lookup (A : Type) : Type :=
| Found (a : A)
| NameError (e : Exc)
| KeyErrorIn (e : Exc)
| OtherError (e : Exc).
Arguments Found {A} a.
Arguments NameError {A} e.
Arguments KeyErrorIn {A} e.
Arguments OtherError {A} e.

(** A factory object.  The first group of fields is what calling it does;
    the second group is what the introspection calls of
    [_guess_return_type] answer for it.  [_get_type_hints] and
    [get_fn_ns] are imported from [aioinject._utils], whose source does
    not define them (and whose [get_return_annotation] takes other
    arguments), so what these helpers answer is data of the factory. *)
Record Factory (W : Type) : Type := MkFactory {
  fn_id : nat;
  __qualname__ : option string;   (* [None]: the object has no such
                                     attribute, as an instance of a class
                                     with [__call__] *)
  iscoroutinefunction : bool;     (* inspect.iscoroutinefunction(factory) *)
  body : gmap string Value -> W -> Outcome Value * W;

  isclass : bool;                 (* inspect.isclass(factory) *)
  factory_origin : option Origin; (* typing.get_origin(factory) *)
  as_type : Ann;                  (* the factory itself, used as a type *)
  unwrapped_type_hints : Lookup (gmap string Ann);
                                  (* _get_type_hints(inspect.unwrap(factory)) *)
  __annotations__ : gmap string Ann;
                                  (* inspect.unwrap(factory).__annotations__ *)
  get_return_annotation : Ann -> Lookup Ann;
                (* get_return_annotation(_, context=get_fn_ns(unwrapped)) *)
  isasyncgenfunction : bool;      (* inspect.isasyncgenfunction(unwrapped) *)
  isgeneratorfunction : bool;     (* inspect.isgeneratorfunction(unwrapped) *)
  __self__ : option Ann;          (* getattr(factory, "__self__", None) *)
}.

(** An exception object created by the code modelled here. *)
Definition new_exc (cls msg : string) (context : option Exc) : Exc :=
  MkExc 0 cls msg context.

Definition KeyError (key : string) (context : option Exc) : Exc :=
  new_exc "KeyError" key context.

Definition ValueError (msg : string) (context : option Exc) : Exc :=
  new_exc "ValueError" msg context.

Definition IndexError (context : option Exc) : Exc :=
  new_exc "IndexError" "tuple index out of range" context.

Definition AttributeError (attribute : string) (context : option Exc) : Exc :=
  new_exc "AttributeError" attribute context.

Definition no_return_type (qualname : string) : string :=
  "Factory " +:+ qualname +:+ " does not specify return type.".

Definition no_return_type_yet (qualname : string) : string :=
  "Factory " +:+ qualname +:+
  " does not specify return type. Or it's type is not defined yet.".

(** The two statements of an [except ... as e] block of
    [_guess_return_type]: the message reads [factory.__qualname__], which
    raises [AttributeError] when the factory has no such attribute; then
    [raise ValueError(msg) from e].  Either exception is raised while [e]
    is being handled. *)
Definition no_return_type_error {W} (factory : Factory W)
    (msg : string -> string) (e : Exc) : Exc :=
  match __qualname__ factory with
  | Some qualname => ValueError (msg qualname) (Some e)
  | None => AttributeError "__qualname__" (Some e)
  end.

(** The [try] statement of [_guess_return_type], lines 175-194.  The
    [try] body is the call of [_get_type_hints] and the subscript, so
    [except KeyError] handles a [KeyError] of either. *)
Definition hinted_return_type {W} (factory : Factory W) : Outcome Ann :=
  match unwrapped_type_hints factory with
  | Found hints =>
      match hints !! "return" with
      | Some return_type => Return return_type
      | None =>
          Raise (no_return_type_error factory no_return_type
                                      (KeyError "return" None))
      end
  | KeyErrorIn e => Raise (no_return_type_error factory no_return_type e)
  | NameError handled =>
      match __annotations__ factory !! "return" with
      | None => Raise (KeyError "return" (Some handled))
      | Some ret_annotation =>
          match get_return_annotation factory ret_annotation with
          | Found return_type => Return return_type
          | NameError e =>
              Raise (no_return_type_error factory no_return_type_yet e)
          | KeyErrorIn e => Raise e
          | OtherError e => Raise e
          end
      end
  | OtherError e => Raise e
  end.

Definition _guess_return_type {W} (factory : Factory W) : Outcome Ann :=
  let origin := factory_origin factory in
  let is_generic :=
    match origin with Some o => isclass_origin o | None => false end in
  if isclass factory || is_generic then Return (as_type factory) else
  match hinted_return_type factory with
  | Raise e => Raise e
  | Return return_type =>
      let unwrapped_return_type :=
        match get_origin return_type with
        | Some origin =>
            let args := get_args return_type in
            let is_async_gen :=
              in_ASYNC_GENERATORS origin && isasyncgenfunction factory in
            let is_sync_gen :=
              in_GENERATORS origin && isgeneratorfunction factory in
            if is_async_gen || is_sync_gen then
              match args with
              | arg0 :: _ => Return arg0
              | [] => Raise (IndexError None)
              end
            else Return return_type
        | None => Return return_type
        end in
      match unwrapped_return_type with
      | Raise e => Raise e
      | Return return_type =>
          match is_Self return_type, __self__ factory with
          | true, Some self_cls => Return self_cls
          | _, _ => Return return_type
          end
      end
  end.

(** *** Providers *)

Inductive DependencyLifetime : Type := transient | scoped | singleton.

#[global] Instance DependencyLifetime_eq_dec : EqDecision DependencyLifetime.
Proof. solve_decision. Defined.

(** The three classes that share [Scoped]'s methods. *)
Inductive ScopedClass : Type := Scoped | Singleton | Transient.

(** A provider object.  Providers built from a factory keep the factory in
    [impl]; an [Object] provider keeps the wrapped object there.
    [_cached_dependencies] is [None] until the attribute is set. *)
Inductive Provider (K W : Type) : Type :=
| FromFactory (cls : ScopedClass) (impl : Factory W) (type_ : K)
              (_cached_dependencies : option (list Dependency))
| OfObject (impl : Value) (type_ : K)
           (_cached_dependencies : option (list Dependency)).
Arguments FromFactory {K W} cls impl type_ _cached_dependencies.
Arguments OfObject {K W} impl type_ _cached_dependencies.

Definition type_ {K W} (p : Provider K W) : K :=
  match p with
  | FromFactory _ _ t _ => t
  | OfObject _ t _ => t
  end.

Definition lifetime {K W} (p : Provider K W) : DependencyLifetime :=
  match p with
  | FromFactory Scoped _ _ _ => scoped
  | FromFactory Singleton _ _ _ => singleton
  | FromFactory Transient _ _ _ => transient
  | OfObject _ _ _ => scoped  (* It's ok to cache it *)
  end.

Definition _cached_dependencies {K W} (p : Provider K W)
  : option (list Dependency) :=
  match p with
  | FromFactory _ _ _ c => c
  | OfObject _ _ c => c
  end.

Definition set_cached_dependencies {K W} (p : Provider K W)
    (deps : list Dependency) : Provider K W :=
  match p with
  | FromFactory c f t _ => FromFactory c f t (Some deps)
  | OfObject v t _ => OfObject v t (Some deps)
  end.

(** Calling the factory with the keyword arguments: a coroutine function
    only creates the coroutine object; anything else runs its body. *)
Definition call {W} (f : Factory W) (kwargs : gmap string Value) (w : W)
  : Outcome Value * W :=
  if iscoroutinefunction f then (Return (Coroutine (fn_id f)), w)
  else body f kwargs w.

(** Awaiting the call of a coroutine function: the body runs. *)
Definition await_call {W} (f : Factory W) (kwargs : gmap string Value)
    (w : W) : Outcome Value * W :=
  body f kwargs w.

(** The methods of [Scoped], which [Singleton] and [Transient] inherit;
    [cls] is the class being instantiated. *)
Module Scoped.

Definition __init__ {W} (cls : ScopedClass) (factory : Factory W)
    (type_ : option Ann) : Outcome (Provider Ann W) :=
  match type_ with
  | Some t => Return (FromFactory cls factory t None)
  | None =>
      match _guess_return_type factory with
      | Return t => Return (FromFactory cls factory t None)
      | Raise e => Raise e
      end
  end.

Definition is_async {W} (impl : Factory W) : bool :=
  iscoroutinefunction impl.

Definition provide_sync {W} (impl : Factory W)
    (kwargs : gmap string Value) (w : W) : Outcome Value * W :=
  call impl kwargs w.

Definition provide {W} (impl : Factory W)
    (kwargs : gmap string Value) (w : W) : Outcome Value * W :=
  if is_async impl then await_call impl kwargs w
  else provide_sync impl kwargs w.

End Scoped.

(** The methods of [Object]. *)
Module Object.

(** [type_of_object] is [type(object_)]. *)
Definition __init__ {W} (object_ : Value) (type_ : option Ann)
    (type_of_object : Ann) : Provider Ann W :=
  OfObject object_ (default type_of_object type_) None.

Definition is_async : bool := false.

Definition provide_sync {W} (impl : Value)
    (kwargs : gmap string Value) (w : W) : Outcome Value * W :=
  (Return impl, w).

Definition provide {W} (impl : Value)
    (kwargs : gmap string Value) (w : W) : Outcome Value * W :=
  (Return impl, w).

(** The class attribute [_type_hints], an empty dictionary. *)
Definition _type_hints : list (string * Ann) := [].

Definition type_hints : Outcome (list (string * Ann)) := Return _type_hints.

End Object.

(** The methods of the [Provider] protocol, dispatched on the class of the
    provider. *)
Module Provider.

Definition is_async {K W} (self : Provider K W) : bool :=
  match self with
  | FromFactory _ impl _ _ => Scoped.is_async impl
  | OfObject _ _ _ => Object.is_async
  end.

Definition provide_sync {K W} (self : Provider K W)
    (kwargs : gmap string Value) (w : W) : Outcome Value * W :=
  match self with
  | FromFactory _ impl _ _ => Scoped.provide_sync impl kwargs w
  | OfObject impl _ _ => Object.provide_sync impl kwargs w
  end.

Definition provide {K W} (self : Provider K W)
    (kwargs : gmap string Value) (w : W) : Outcome Value * W :=
  match self with
  | FromFactory _ impl _ _ => Scoped.provide impl kwargs w
  | OfObject impl _ _ => Object.provide impl kwargs w
  end.

(** [Provider.collect_dependencies], lines 234-244.  [type_hints] is what
    [self.type_hints(context)] evaluates to; the updated provider carries
    the attribute the method sets. *)
Definition collect_dependencies {K W} (self : Provider K W)
    (type_hints : Outcome (list (string * Ann)))
  : Outcome (list Dependency) * Provider K W :=
  match _cached_dependencies self with
  | Some deps => (Return deps, self)
  | None =>
      match type_hints with
      | Return hints =>
          let deps := collect_dependencies hints in
          (Return deps, set_cached_dependencies self deps)
      | Raise e => (Raise e, self)
      end
  end.

End Provider.

End Providers.

(** ** contextlib.ExitStack and contextlib.AsyncExitStack

    The part of the standard library the stores delegate to, after
    CPython 3.11's [Lib/contextlib.py]. *)

Module Contextlib.

(** An entry of [_exit_callbacks]: the pair [(is_sync, cb)].  [owner] is the
    identity of the context manager whose exit method [cb] is bound to. *)
Record ExitCallback : Type := MkExitCallback {
  owner : nat;
  is_sync : bool;
  cb : option Exc -> Outcome bool;
}.

(** The deque [_exit_callbacks]: [append] adds at the right end, [pop]
    takes from the right end. *)
Definition Callbacks : Type := list ExitCallback.

Definition TypeError (msg : string) : Exc := MkExc 0 "TypeError" msg None.

(** [_BaseExitStack.enter_context], lines 490-507. *)
Definition enter_context (stack : Callbacks) (cm : Value)
  : Outcome Value * Callbacks :=
  match sync_protocol cm with
  | None =>
      (Raise (TypeError "object does not support the context manager protocol"),
       stack)
  | Some p =>
      match on_enter p with
      | Return result =>
          (Return result,
           stack ++ [MkExitCallback (ident_of cm) true (on_exit p)])
      | Raise e => (Raise e, stack)
      end
  end.

(** [AsyncExitStack.enter_async_context]. *)
Definition enter_async_context (stack : Callbacks) (cm : Value)
  : Outcome Value * Callbacks :=
  match async_protocol cm with
  | None =>
      (Raise (TypeError
         "object does not support the asynchronous context manager protocol"),
       stack)
  | Some p =>
      match on_enter p with
      | Return result =>
          (Return result,
           stack ++ [MkExitCallback (ident_of cm) false (on_exit p)])
      | Raise e => (Raise e, stack)
      end
  end.

(** [_fix_exception_context new_exc old_exc], the local function of
    [__exit__]: walk the [__context__] chain of [new_exc]; stop without a
    change at its end or at [old_exc]; at [frame_exc] replace the link by
    [old_exc].  The result is [new_exc] after the assignment. *)
Fixpoint _fix_exception_context (frame_exc : option Exc) (new_exc : Exc)
    (old_exc : option Exc) : Exc :=
  match new_exc with
  | MkExc i c m exc_context =>
      match exc_context with
      | None => new_exc
      | Some ctx =>
          if is_ exc_context old_exc then new_exc
          else if is_ exc_context frame_exc then MkExc i c m old_exc
          else MkExc i c m (Some (_fix_exception_context frame_exc ctx old_exc))
      end
  end.

(** The local variables of [__exit__] that the loop updates.  The last two
    fields are observations for the statements below, not program state:
    the owners whose callback has been called, and the exceptions the
    callbacks raised, both in call order. *)
Record Unwinding : Type := MkUnwinding {
  exc_details : option Exc;
  suppressed_exc : bool;
  pending_raise : bool;
  released : list nat;
  failures : list Exc;
}.

(** The body of the [try] statement in the loop, for one popped callback. *)
Definition call_exit (frame_exc : option Exc) (c : ExitCallback)
    (st : Unwinding) : Unwinding :=
  match cb c (exc_details st) with
  | Return true =>
      MkUnwinding None true false
                  (released st ++ [owner c]) (failures st)
  | Return false =>
      MkUnwinding (exc_details st) (suppressed_exc st) (pending_raise st)
                  (released st ++ [owner c]) (failures st)
  | Raise new_exc =>
      MkUnwinding
        (Some (_fix_exception_context frame_exc new_exc (exc_details st)))
        (suppressed_exc st) true
        (released st ++ [owner c]) (failures st ++ [new_exc])
  end.

(** The [while self._exit_callbacks] loop over the callbacks in the order
    they are popped.  With [assert_sync] (the loop of [ExitStack]) an entry
    that is not synchronous stops the loop with an [AssertionError]; the
    result then carries the entries still on the deque, in popping order,
    and [true]. *)
Fixpoint exit_loop (assert_sync : bool) (frame_exc : option Exc)
    (popping : list ExitCallback) (st : Unwinding)
  : Unwinding * list ExitCallback * bool :=
  match popping with
  | [] => (st, [], false)
  | c :: rest =>
      if assert_sync && negb (is_sync c) then (st, rest, true)
      else exit_loop assert_sync frame_exc rest (call_exit frame_exc c st)
  end.

(** What [__exit__] and [__aexit__] evaluate to: the value or exception,
    the owners released in order, and the deque afterwards. *)
Definition Exited : Type := Outcome bool * list nat * Callbacks.

Definition exit_with (assert_sync : bool) (frame_exc : option Exc)
    (stack : Callbacks) (exc : option Exc) : Exited :=
  let received_exc := bool_decide (is_Some exc) in
  let '(st, rest, assertion_failed) :=
    exit_loop assert_sync frame_exc (rev stack)
              (MkUnwinding exc false false [] []) in
  if assertion_failed then
    (Raise (MkExc 0 "AssertionError" "" frame_exc), released st, rev rest)
  else if pending_raise st then
    match exc_details st with
    | Some e => (Raise e, released st, [])
    | None =>
        (Raise (MkExc 0 "AttributeError"
                  "'NoneType' object has no attribute '__context__'" frame_exc),
         released st, [])
    end
  else (Return (received_exc && suppressed_exc st), released st, []).

(** [ExitStack.__exit__], lines 546-593.  [frame_exc] is
    [sys.exc_info()[1]] at the call. *)
Definition __exit__ (frame_exc : option Exc) (stack : Callbacks)
    (exc : option Exc) : Exited :=
  exit_with true frame_exc stack exc.

(** [AsyncExitStack.__aexit__]: the same loop, awaiting the entries that
    are not synchronous. *)
Definition __aexit__ (frame_exc : option Exc) (stack : Callbacks)
    (exc : option Exc) : Exited :=
  exit_with false frame_exc stack exc.


(** The loop of [ExitStack] asserts that every entry is synchronous; the
    loop of [AsyncExitStack] accepts every entry. *)
Definition accepted (assert_sync : bool) (stack : Callbacks) : bool :=
  forallb (λ c, negb assert_sync || is_sync c) stack.



(** In the words of the statements: releases run one after the other,
    which is what the loop simulates when it is handed no exception.  Each
    release is handed what is pending; a true value clears it, a false
    value leaves it, and an exception replaces it. *)
Definition after_release (frame_exc : option Exc) (pending : option Exc)
    (release : option Exc -> Outcome bool) : option Exc :=
  match release pending with
  | Return true => None
  | Return false => pending
  | Raise new_exc => Some (_fix_exception_context frame_exc new_exc pending)
  end.

(** What is pending after the releases have run, first to last. *)
Definition release_in_order (frame_exc : option Exc)
    (releases : list (option Exc -> Outcome bool)) : option Exc :=
  foldl (after_release frame_exc) None releases.

Definition raise_pending (pending : option Exc) : Outcome unit :=
  match pending with
  | Some e => Raise e
  | None => Return ()
  end.


End Contextlib.

(** ** aioinject/_utils.py *)

Module Utils.
Import Contextlib.

(** [enter_context_maybe], lines 64-77. *)
Definition enter_context_maybe (resolved : Value) (stack : Callbacks)
  : Outcome Value * Callbacks :=
  if isinstance_ContextDecorator resolved then
    enter_context stack resolved
  else if isinstance_AsyncContextDecorator resolved then
    enter_async_context stack resolved
  else (Return resolved, stack).

(** The protocol through which [enter_context_maybe] enters an instance
    of one of the two decorator classes. *)
Definition protocol_entered (resolved : Value) : option (Protocol Value) :=
  if isinstance_ContextDecorator resolved then sync_protocol resolved
  else async_protocol resolved.

(** [enter_sync_context_maybe], lines 80-86. *)
Definition enter_sync_context_maybe (resolved : Value) (stack : Callbacks)
  : Outcome Value * Callbacks :=
  if isinstance_ContextDecorator resolved then
    enter_context stack resolved
  else (Return resolved, stack).

End Utils.

(** ** aioinject/_store.py *)

(** The state of an [InstanceStore] object. *)
Record InstanceStore (K : Type) `{Countable K} : Type := MkInstanceStore {
  _cache : gmap K Value;
  _exit_stack : Contextlib.Callbacks;       (* an AsyncExitStack *)
  _sync_exit_stack : Contextlib.Callbacks;  (* an ExitStack *)
}.
Arguments InstanceStore K {_ _}.
Arguments MkInstanceStore {K _ _} _cache _exit_stack _sync_exit_stack.

(** What closing a store evaluates to: [None] or the exception raised, the
    owners released in order, and the store afterwards. *)
Definition Closed (K : Type) `{Countable K} : Type :=
  Outcome unit * list nat * InstanceStore K.
Arguments Closed K {_ _}.

Module InstanceStore.
Import Providers.
Section methods.
Context {K : Type} `{Countable K} {W : Type}.

Definition __init__ : InstanceStore K := MkInstanceStore ∅ [] [].

(** [get]: [None] stands for [NotInCache.sentinel]. *)
Definition get (self : InstanceStore K) (provider : Provider K W)
  : option Value :=
  _cache self !! type_ provider.

Definition add (self : InstanceStore K) (provider : Provider K W)
    (obj : Value) : InstanceStore K :=
  if decide (lifetime provider ≠ transient) then
    MkInstanceStore (<[type_ provider := obj]> (_cache self))
                    (_exit_stack self) (_sync_exit_stack self)
  else self.

(** [lock] and [sync_lock]: the value the [nullcontext] yields. *)
Definition lock (self : InstanceStore K) (provider : Provider K W) : bool :=
  bool_decide (_cache self !! type_ provider = None).

Definition sync_lock (self : InstanceStore K) (provider : Provider K W)
  : bool :=
  bool_decide (_cache self !! type_ provider = None).

Definition enter_context (self : InstanceStore K) (obj : Value)
  : Outcome Value * InstanceStore K :=
  let '(r, stack) := Utils.enter_context_maybe obj (_exit_stack self) in
  (r, MkInstanceStore (_cache self) stack (_sync_exit_stack self)).

Definition enter_sync_context (self : InstanceStore K) (obj : Value)
  : Outcome Value * InstanceStore K :=
  let '(r, stack) :=
    Utils.enter_sync_context_maybe obj (_sync_exit_stack self) in
  (r, MkInstanceStore (_cache self) (_exit_stack self) stack).

(** [__aexit__] awaits the stack's [__aexit__] and drops its value. *)
Definition __aexit__ (frame_exc : option Exc) (self : InstanceStore K)
    (exc_val : option Exc) : Closed K :=
  let '(r, log, stack) :=
    Contextlib.__aexit__ frame_exc (_exit_stack self) exc_val in
  (match r with Return _ => Return () | Raise e => Raise e end,
   log,
   MkInstanceStore (_cache self) stack (_sync_exit_stack self)).

Definition aclose (frame_exc : option Exc) (self : InstanceStore K)
  : Closed K :=
  __aexit__ frame_exc self None.

Definition __exit__ (frame_exc : option Exc) (self : InstanceStore K)
    (exc_val : option Exc) : Closed K :=
  let '(r, log, stack) :=
    Contextlib.__exit__ frame_exc (_sync_exit_stack self) exc_val in
  (match r with Return _ => Return () | Raise e => Raise e end,
   log,
   MkInstanceStore (_cache self) (_exit_stack self) stack).

Definition close (frame_exc : option Exc) (self : InstanceStore K)
  : Closed K :=
  __exit__ frame_exc self None.

(** A sequence of [add] calls. *)
Definition add_all (self : InstanceStore K)
    (calls : list (Provider K W * Value)) : InstanceStore K :=
  foldl (λ s c, add s c.1 c.2) self calls.

(** Every entry of the synchronous stack is a synchronous callback, which
    is what the loop of [ExitStack.__exit__] asserts. *)
Definition sync_stack_ok (self : InstanceStore K) : bool :=
  Contextlib.accepted true (_sync_exit_stack self).

End methods.
End InstanceStore.

(** The state of a [SingletonStore] object: the inherited attributes and
    the two [defaultdict]s of locks.  A lock is its [locked()] flag. *)
Record SingletonStore (K : Type) `{Countable K} : Type := MkSingletonStore {
  base : InstanceStore K;
  _locks : gmap K bool;        (* asyncio.Lock objects *)
  _sync_locks : gmap K bool;   (* threading.Lock objects *)
}.
Arguments SingletonStore K {_ _}.
Arguments MkSingletonStore {K _ _} base _locks _sync_locks.

(** Which of the two context managers of [SingletonStore] a caller uses. *)
Inductive Path : Type :=
| ViaLock        (* async with store.lock(provider) *)
| ViaSyncLock.   (* with store.sync_lock(provider) *)

#[global] Instance Path_eq_dec : EqDecision Path.
Proof. solve_decision. Defined.

(** Where the generator behind [lock] / [sync_lock] stands after its first
    statement. *)
Inductive Position : Type :=
| Entering
    (* in [with self._locks[type_]], lock looked up, not yet acquired *)
| YieldedFalse.
    (* suspended at the last line, [yield False], holding nothing *)

Module SingletonStore.
Import Providers.
Section methods.
Context {K : Type} `{Countable K} {W : Type}.

Definition __init__ : SingletonStore K :=
  MkSingletonStore InstanceStore.__init__ ∅ ∅.

Definition table (path : Path) (self : SingletonStore K) : gmap K bool :=
  match path with
  | ViaLock => _locks self
  | ViaSyncLock => _sync_locks self
  end.

Definition set_table (path : Path) (self : SingletonStore K)
    (t : gmap K bool) : SingletonStore K :=
  match path with
  | ViaLock => MkSingletonStore (base self) t (_sync_locks self)
  | ViaSyncLock => MkSingletonStore (base self) (_locks self) t
  end.

(** [d[key]] on a [defaultdict] whose factory makes an unlocked lock, run
    without another caller in between: a missing key is inserted.  The
    lookup contains no [await], so coroutines cannot interleave inside it;
    threads can, between the failed lookup and the insertion, when hashing
    the key runs Python code (see [Resolver.advance]). *)
Definition getitem (d : gmap K bool) (key : K) : gmap K bool :=
  match d !! key with
  | Some _ => d
  | None => <[key := false]> d
  end.

(** Is the lock of [key] held? *)
Definition locked (path : Path) (self : SingletonStore K) (key : K) : bool :=
  default false (table path self !! key).

(** The test of line 108 / 119. *)
Definition first_test (self : SingletonStore K) (provider : Provider K W)
  : bool :=
  bool_decide (_cache (base self) !! type_ provider = None).

(** The generator up to the lock acquisition: the test of line 108 / 119
    and, when the type is absent, the lookup of the lock of line 109 /
    120. *)
Definition begin (path : Path) (self : SingletonStore K)
    (provider : Provider K W) : Position * SingletonStore K :=
  if decide (_cache (base self) !! type_ provider = None) then
    (Entering,
     set_table path self (getitem (table path self) (type_ provider)))
  else (YieldedFalse, self).

(** Entering the [with] block of the lock: possible only while the lock is
    free, and then the lock is held. *)
Definition acquire (path : Path) (self : SingletonStore K)
    (provider : Provider K W) : option (SingletonStore K) :=
  if locked path self (type_ provider) then None
  else Some (set_table path self
               (<[type_ provider := true]> (table path self))).

(** The value of the [yield] expression of line 110 / 121, evaluated
    while the lock is held. *)
Definition yielded (self : SingletonStore K) (provider : Provider K W)
  : bool :=
  bool_decide (_cache (base self) !! type_ provider = None).

(** Leaving the [with] block after the [return] of line 111 / 122. *)
Definition release (path : Path) (self : SingletonStore K)
    (provider : Provider K W) : SingletonStore K :=
  set_table path self (<[type_ provider := false]> (table path self)).

(** The generator from the lock acquisition to its [yield], lines 109-110
    / 120-121: it waits while the lock is held ([None]); once it has the
    lock it evaluates the [yield] expression on the cache as it is then. *)
Definition resume (path : Path) (self : SingletonStore K)
    (provider : Provider K W) : option (bool * SingletonStore K) :=
  match acquire path self provider with
  | Some held => Some (yielded held provider, held)
  | None => None
  end.

(** The generator run from its start to its [yield]: the value yielded and
    the store, or [None] when the caller has to wait for the lock.
    [others] is what other callers do to the store between this caller's
    lookup of the lock and its acquisition, where a caller that finds the
    lock held is suspended. *)
Definition enter_while (others : SingletonStore K -> SingletonStore K)
    (path : Path) (self : SingletonStore K) (provider : Provider K W)
  : option (bool * SingletonStore K) :=
  match begin path self provider with
  | (YieldedFalse, s) => Some (false, s)
  | (Entering, s) => resume path (others s) provider
  end.

(** The same without another caller in between. *)
Definition enter (path : Path) (self : SingletonStore K)
    (provider : Provider K W) : option (bool * SingletonStore K) :=
  enter_while (λ s, s) path self provider.

Definition lock (self : SingletonStore K) (provider : Provider K W)
  : option (bool * SingletonStore K) :=
  enter ViaLock self provider.

Definition sync_lock (self : SingletonStore K) (provider : Provider K W)
  : option (bool * SingletonStore K) :=
  enter ViaSyncLock self provider.

(** The inherited [get] and [add]. *)
Definition get (self : SingletonStore K) (provider : Provider K W)
  : option Value :=
  InstanceStore.get (base self) provider.

Definition add (self : SingletonStore K) (provider : Provider K W)
    (obj : Value) : SingletonStore K :=
  MkSingletonStore (InstanceStore.add (base self) provider obj)
                   (_locks self) (_sync_locks self).

End methods.
End SingletonStore.

(** ** Requesters of a singleton *)

Module Resolver.
Import Providers.
Section requesters.
Context {K : Type} `{Countable K} {W : Type}.

(** Modelled from the spec: the resolver that drives the store is not among
    the source files.  What it is given for a request: the provider
    responsible for the requested type; the provider's ordered list of
    dependencies; how one dependency is resolved, recursively, through the
    store; and whether hashing the requested type runs Python code, as it
    does for the aliases of [typing] and not for a class. *)
Record Request : Type := MkRequest {
  requested : Provider K W;
  dependencies : list Dependency;
  resolve_dependency :
    Dependency -> SingletonStore K -> W -> Outcome Value * SingletonStore K * W;
  hash_runs_python : bool;
}.

Definition key (q : Request) : K := type_ (requested q).

(** Modelled from the spec: a requester follows the data flow of the
    specification's overview: probe the cache; on a miss enter
    [lock] / [sync_lock]; when it yields [True] resolve the dependencies,
    invoke the provider, register the resource with the store and [add]
    the result; when it yields [False] re-read with [get]; leave the lock.
    The constructors name the statement a requester executes next.
    [lock] is the lock object the requester got from the table, numbered
    by the locks of the type that had been replaced in the table by
    then. *)
Inductive Requester : Type :=
| Probing                   (* store.get(provider) *)
| Testing                   (* line 108 / 119: the first test *)
| Looking                   (* line 109 / 120: the lookup in the table *)
| Storing                   (* in defaultdict.__missing__: self[key] = lock *)
| Acquiring (lock : nat)    (* entering the with block of the lock *)
| Rechecking (lock : nat)   (* lock held: the yield expression *)
| Resolving (lock : nat) (todo : list Dependency)
            (kwargs : gmap string Value)
                            (* yielded True: the next dependency *)
| Constructing (lock : nat) (kwargs : gmap string Value)
                            (* provider.provide[_sync](kwargs) *)
| Registering (lock : nat) (v : Value)
                            (* store.enter_[sync_]context(v) *)
| Caching (lock : nat) (v : Value)
                            (* store.add(provider, v) *)
| Rereading (lock : option nat)
                            (* yielded False: store.get(provider) *)
| Leaving (lock : option nat) (r : Outcome (option Value))
                            (* the end of the with block *)
| Finished (r : Outcome (option Value)).

(** The shared state: the store, the state the factory works on, the
    number of times the provider was asked to construct, the locks of the
    type that were in [_sync_locks] and have been replaced there (oldest
    first, each by its [locked()] flag), and the requesters with the path
    each one takes. *)
Record World : Type := MkWorld {
  store : SingletonStore K;
  factory_state : W;
  executions : nat;
  replaced : list bool;
  requesters : list (Path * Requester);
}.

(** Is the lookup of the lock one step?  Coroutines switch only at an
    [await], and the lookup has none.  Threads switch between bytecodes
    and inside Python code called from C: [defaultdict.__getitem__] hashes
    the key, calls [__missing__] on a miss, and that stores the new lock
    with [self[key] = value], hashing again; a key whose [__hash__] is
    Python code lets another thread run between the miss and the store. *)
Definition atomic_lookup (q : Request) (path : Path) : bool :=
  match path with
  | ViaLock => true
  | ViaSyncLock => negb (hash_runs_python q)
  end.

(** The number of the lock that is in the table. *)
Definition current (path : Path) (replaced : list bool) : nat :=
  match path with
  | ViaLock => 0
  | ViaSyncLock => length replaced
  end.

Definition in_table (path : Path) (replaced : list bool) (lock : nat)
  : bool :=
  match path with
  | ViaLock => true
  | ViaSyncLock => bool_decide (lock = length replaced)
  end.

(** [lock.__enter__()] on the lock object a requester holds a reference
    to: the lock of the table, or one that was replaced there. *)
Definition acquire_lock (q : Request) (path : Path) (lock : nat)
    (s : SingletonStore K) (replaced : list bool)
  : option (SingletonStore K * list bool) :=
  if in_table path replaced lock then
    match SingletonStore.acquire path s (requested q) with
    | Some s' => Some (s', replaced)
    | None => None
    end
  else
    match replaced !! lock with
    | Some false => Some (s, <[lock := true]> replaced)
    | _ => None
    end.

Definition release_lock (q : Request) (path : Path) (lock : nat)
    (s : SingletonStore K) (replaced : list bool)
  : SingletonStore K * list bool :=
  if in_table path replaced lock then
    (SingletonStore.release path s (requested q), replaced)
  else (s, <[lock := false]> replaced).

(** [self[key] = value] in [defaultdict.__missing__], with a new unlocked
    lock: a lock another thread stored in the meantime is replaced. *)
Definition store_new_lock (q : Request) (path : Path)
    (s : SingletonStore K) (replaced : list bool)
  : SingletonStore K * list bool :=
  (SingletonStore.set_table path s
     (<[key q := false]> (SingletonStore.table path s)),
   match SingletonStore.table path s !! key q with
   | Some b => replaced ++ [b]
   | None => replaced
   end).

(** Modelled from the spec: invoking the provider's construction strategy
    with the resolved arguments. *)
Definition construct (path : Path) (provider : Provider K W)
    (kwargs : gmap string Value) (w : W) : Outcome Value * W :=
  match path with
  | ViaLock => Provider.provide provider kwargs w
  | ViaSyncLock => Provider.provide_sync provider kwargs w
  end.

(** Modelled from the spec: registering an acquired resource with the
    cleanup stack of the store, through the inherited [enter_context] /
    [enter_sync_context]. *)
Definition register (path : Path) (s : SingletonStore K) (v : Value)
  : Outcome Value * SingletonStore K :=
  let '(r, b) :=
    match path with
    | ViaLock => InstanceStore.enter_context (base s) v
    | ViaSyncLock => InstanceStore.enter_sync_context (base s) v
    end in
  (r, MkSingletonStore b (_locks s) (_sync_locks s)).

(** Modelled from the spec: one atomic step of a requester on [path] that
    is about to execute [r], following the resolver's data flow; [None]
    when the requester is blocked on the lock or has finished.  The steps
    inside [lock] / [sync_lock] are those of the source, one per line; the
    lookup of the lock is one step where [atomic_lookup] says so and two
    otherwise.  The result is the statement to execute next and the new
    shared state. *)
Definition advance (q : Request) (path : Path) (r : Requester)
    (s : SingletonStore K) (w : W) (n : nat) (replaced : list bool)
  : option (Requester * SingletonStore K * W * nat * list bool) :=
  let provider := requested q in
  match r with
  | Probing =>
      match SingletonStore.get s provider with
      | Some v => Some (Finished (Return (Some v)), s, w, n, replaced)
      | None => Some (Testing, s, w, n, replaced)
      end
  | Testing =>
      if SingletonStore.first_test s provider
      then Some (Looking, s, w, n, replaced)
      else Some (Rereading None, s, w, n, replaced)
  | Looking =>
      if atomic_lookup q path then
        Some (Acquiring (current path replaced),
              SingletonStore.set_table path s
                (SingletonStore.getitem (SingletonStore.table path s)
                   (key q)),
              w, n, replaced)
      else
        match SingletonStore.table path s !! key q with
        | Some _ => Some (Acquiring (current path replaced), s, w, n, replaced)
        | None => Some (Storing, s, w, n, replaced)
        end
  | Storing =>
      let '(s', replaced') := store_new_lock q path s replaced in
      Some (Acquiring (current path replaced'), s', w, n, replaced')
  | Acquiring lock =>
      match acquire_lock q path lock s replaced with
      | Some (s', replaced') => Some (Rechecking lock, s', w, n, replaced')
      | None => None
      end
  | Rechecking lock =>
      if SingletonStore.yielded s provider
      then Some (Resolving lock (dependencies q) ∅, s, w, n, replaced)
      else Some (Rereading (Some lock), s, w, n, replaced)
  | Resolving lock [] kwargs =>
      Some (Constructing lock kwargs, s, w, n, replaced)
  | Resolving lock (d :: todo) kwargs =>
      match resolve_dependency q d s w with
      | (Return v, s', w') =>
          Some (Resolving lock todo (<[name d := v]> kwargs),
                s', w', n, replaced)
      | (Raise e, s', w') =>
          Some (Leaving (Some lock) (Raise e), s', w', n, replaced)
      end
  | Constructing lock kwargs =>
      match construct path provider kwargs w with
      | (Return v, w') => Some (Registering lock v, s, w', S n, replaced)
      | (Raise e, w') =>
          Some (Leaving (Some lock) (Raise e), s, w', S n, replaced)
      end
  | Registering lock v =>
      match register path s v with
      | (Return v', s') => Some (Caching lock v', s', w, n, replaced)
      | (Raise e, s') =>
          Some (Leaving (Some lock) (Raise e), s', w, n, replaced)
      end
  | Caching lock v =>
      Some (Leaving (Some lock) (Return (Some v)),
            SingletonStore.add s provider v, w, n, replaced)
  | Rereading lock =>
      Some (Leaving lock (Return (SingletonStore.get s provider)),
            s, w, n, replaced)
  | Leaving (Some lock) r =>
      let '(s', replaced') := release_lock q path lock s replaced in
      Some (Finished r, s', w, n, replaced')
  | Leaving None r => Some (Finished r, s, w, n, replaced)
  | Finished _ => None
  end.

(** Requester [i] takes its step; [None] when there is no such requester
    or it cannot step. *)
Definition step (q : Request) (i : nat) (g : World) : option World :=
  match requesters g !! i with
  | None => None
  | Some (path, r) =>
      match advance q path r (store g) (factory_state g) (executions g)
                    (replaced g) with
      | Some (r', s', w', n', replaced') =>
          Some (MkWorld s' w' n' replaced'
                        (<[i := (path, r')]> (requesters g)))
      | None => None
      end
  end.

(** A schedule names the requester that runs next; a requester that
    cannot step is skipped. *)
Fixpoint run (q : Request) (schedule : list nat) (g : World) : World :=
  match schedule with
  | [] => g
  | i :: rest => run q rest (default g (step q i g))
  end.

(** The start: a store, the factory state, and every requester about to
    probe the store. *)
Definition init (s : SingletonStore K) (paths : list Path) (w : W) : World :=
  MkWorld s w 0 [] ((λ path, (path, Probing)) <$> paths).

Definition is_finished (r : Requester) : bool :=
  match r with Finished _ => true | _ => false end.

Definition all_finished (g : World) : bool :=
  forallb (λ t, is_finished t.2) (requesters g).

(** The results the finished requesters observed. *)
Definition observed (g : World) : list (Outcome (option Value)) :=
  omap (λ t, match t.2 with Finished r => Some r | _ => None end)
       (requesters g).






(** An upper bound on the steps a requester at [r] still takes, for a
    provider with [d] dependencies. *)
Definition rank (d : nat) (r : Requester) : nat :=
  match r with
  | Probing => 11 + d
  | Testing => 10 + d
  | Looking => 9 + d
  | Storing => 8 + d
  | Acquiring _ => 7 + d
  | Rechecking _ => 6 + d
  | Resolving _ todo _ => 5 + length todo
  | Constructing _ _ => 4
  | Registering _ _ => 3
  | Caching _ _ => 2
  | Rereading _ => 2
  | Leaving _ _ => 1
  | Finished _ => 0
  end.

Definition remaining (d : nat) (ths : list (Path * Requester)) : nat :=
  sum_list_with (λ t, rank d t.2) ths.

(** How far the construction of the singleton has come. *)
Inductive Phase : Type :=
| Unbuilt    (* no requester has been yielded [True] yet *)
| Building   (* one has, and it has not cached its result yet *)
| Cached.    (* the result is in the cache *)

#[global] Instance Phase_eq_dec : EqDecision Phase.
Proof. solve_decision. Defined.





End requesters.
End Resolver.

(** ** Dictionaries

    A Python [dict] with string keys, as the list of its items in
    insertion order; every key occurs once. *)

Module Dict.
Section dict.
Context {A : Type}.

(** [d.get(key)] *)
Fixpoint get (d : list (string * A)) (key : string) : option A :=
  match d with
  | [] => None
  | (k, v) :: rest => if decide (k = key) then Some v else get rest key
  end.

(** [key in d] *)
Definition contains (d : list (string * A)) (key : string) : bool :=
  match get d key with Some _ => true | None => false end.

(** The items left when [key] is removed. *)
Fixpoint remove (d : list (string * A)) (key : string) : list (string * A) :=
  match d with
  | [] => []
  | (k, v) :: rest =>
      if decide (k = key) then remove rest key else (k, v) :: remove rest key
  end.

(** [d[key] = value]: an existing key keeps its place, a new key goes to
    the end. *)
Fixpoint setitem (d : list (string * A)) (key : string) (value : A)
  : list (string * A) :=
  match d with
  | [] => [(key, value)]
  | (k, v) :: rest =>
      if decide (k = key) then (k, value) :: rest
      else (k, v) :: setitem rest key value
  end.

(** [del d[key]]: [KeyError] when the key is missing. *)
Definition delitem (d : list (string * A)) (key : string)
  : Outcome (list (string * A)) :=
  match get d key with
  | Some _ => Return (remove d key)
  | None => Raise (Providers.KeyError key None)
  end.

Definition keys (d : list (string * A)) : list string := d.*1.

(** The invariant of a dictionary: no key twice. *)
Definition well_formed (d : list (string * A)) : Prop := NoDup (keys d).

(** [d1 == d2]: the same items, in any order. *)
Definition equal (d1 d2 : list (string * A)) : Prop :=
  ∀ key, get d1 key = get d2 key.

End dict.
End Dict.

(** ** typing *)

Module Typing.
Import Providers.

(** [typing.get_type_hints(function, include_extras=True)]: the values of
    [__annotations__] are evaluated one after the other in the function's
    namespaces and the first failure propagates.  [eval] is the evaluation
    of one annotation. *)
Fixpoint get_type_hints (eval : Ann -> Outcome Ann)
    (annotations : list (string * Ann)) : Outcome (list (string * Ann)) :=
  match annotations with
  | [] => Return []
  | (name, value) :: rest =>
      match eval value with
      | Raise e => Raise e
      | Return hint =>
          match get_type_hints eval rest with
          | Raise e => Raise e
          | Return hints => Return ((name, hint) :: hints)
          end
      end
  end.


End Typing.

(** ** aioinject/_utils.py: annotations and wrappers *)

(** A function object as the helpers see it: its [__annotations__] and the
    names of the parameters [inspect.signature] reports for it, which
    follow [__signature__] once that attribute is set. *)
Record Function : Type := MkFunction {
  annotations : list (string * Providers.Ann);
  signature : list string;
}.

(** A callable as [is_context_manager_function] sees it: whether it is a
    generator function, whether it is an asynchronous generator function,
    and its [__wrapped__] attribute when it has one. *)
Inductive Callable : Type :=
| Unwrapped (is_generator_function is_async_generator_function : bool)
| Wrapping (is_generator_function is_async_generator_function : bool)
           (wrapped : Callable).

Module Annotations.
Import Providers.

(** [isinstance(arg, Inject) or arg is Inject] *)
Definition is_marker (arg : Ann) : bool :=
  match arg with
  | AInjectClass | AInject _ => true
  | _ => false
  end.

(** The test of the comprehension in [get_inject_annotations]. *)
Definition has_marker (annotation : Ann) : bool :=
  existsb is_marker (get_args annotation).

(** Does [collect_dependencies] find a marker on the hint? *)
Definition marked (hint : Ann) : bool :=
  match _find_inject_marker_in_annotation_args
          (_get_annotation_args hint).2 with
  | Some _ => true
  | None => false
  end.

(** [remove_annotation], lines 89-97, around the body of a [with]
    statement.  The body gets the dictionary without [name] and may change
    it.  When the body returns, the generator resumes after its [yield] and
    puts a removed annotation back; when the body raises, the exception is
    thrown into the generator at the [yield], which is not inside a [try],
    so nothing is put back. *)
Definition remove_annotation {A B} (annotations : list (string * A))
    (name : string)
    (body : list (string * A) -> Outcome B * list (string * A))
  : Outcome B * list (string * A) :=
  let annotation := Dict.get annotations name in
  match body (Dict.remove annotations name) with
  | (Return b, after) =>
      (Return b,
       match annotation with
       | Some value => Dict.setitem after name value
       | None => after
       end)
  | (Raise e, after) => (Raise e, after)
  end.

(** [get_inject_annotations], lines 39-53: the result and the function's
    [__annotations__] afterwards. *)
Definition get_inject_annotations (eval : Ann -> Outcome Ann)
    (annotations : list (string * Ann))
  : Outcome (list (string * Ann)) * list (string * Ann) :=
  remove_annotation annotations "return"
    (λ popped,
       (match Typing.get_type_hints eval popped with
        | Return hints => Return (List.filter (λ h, has_marker h.2) hints)
        | Raise e => Raise e
        end,
        popped)).

(** The loop [for name in inject_annotations: del
    wrapper.__annotations__[name]]: what it raises, and the dictionary when
    it stops. *)
Fixpoint delete_each (annotations : list (string * Ann))
    (names : list string) : Outcome unit * list (string * Ann) :=
  match names with
  | [] => (Return (), annotations)
  | name :: rest =>
      match Dict.delitem annotations name with
      | Return remaining => delete_each remaining rest
      | Raise e => (Raise e, annotations)
      end
  end.

(** [clear_wrapper], lines 23-36: the result and the wrapper afterwards. *)
Definition clear_wrapper (eval : Ann -> Outcome Ann) (wrapper : Function)
  : Outcome Function * Function :=
  match get_inject_annotations eval (annotations wrapper) with
  | (Raise e, after) => (Raise e, MkFunction after (signature wrapper))
  | (Return inject_annotations, after) =>
      let new_params :=
        List.filter (λ p, negb (Dict.contains inject_annotations p))
                    (signature wrapper) in
      match delete_each after (Dict.keys inject_annotations) with
      | (Return _, cleared) =>
          (Return (MkFunction cleared new_params),
           MkFunction cleared new_params)
      | (Raise e, cleared) => (Raise e, MkFunction cleared new_params)
      end
  end.

(** [is_context_manager_function], lines 56-61. *)
Fixpoint is_context_manager_function (func : Callable) : bool :=
  match func with
  | Wrapping _ _ inner => is_context_manager_function inner
  | Unwrapped is_generator is_async_generator =>
      is_generator || is_async_generator
  end.

(** The function at the end of the [__wrapped__] chain. *)
Fixpoint innermost (func : Callable) : Callable :=
  match func with
  | Wrapping _ _ inner => innermost inner
  | Unwrapped _ _ => func
  end.

(** [inspect.isgeneratorfunction(func) or inspect.isasyncgenfunction(func)]
    on the callable itself. *)
Definition is_generator_shaped (func : Callable) : bool :=
  match func with
  | Wrapping g a _ | Unwrapped g a => g || a
  end.

End Annotations.

(** ** aioinject/utils.py *)

Module PublicUtils.
Import Providers.

(** [get_inject_annotations], lines 24-34: the hints are resolved with the
    return annotation in place. *)
Definition get_inject_annotations (eval : Ann -> Outcome Ann)
    (annotations : list (string * Ann)) : Outcome (list (string * Ann)) :=
  match Typing.get_type_hints eval annotations with
  | Return hints =>
      Return (List.filter (λ h, Annotations.has_marker h.2) hints)
  | Raise e => Raise e
  end.

(** [clear_wrapper], lines 10-21. *)
Definition clear_wrapper (eval : Ann -> Outcome Ann) (wrapper : Function)
  : Outcome Function * Function :=
  match get_inject_annotations eval (annotations wrapper) with
  | Raise e => (Raise e, wrapper)
  | Return inject_annotations =>
      let new_params :=
        List.filter (λ p, negb (Dict.contains inject_annotations p))
                    (signature wrapper) in
      match Annotations.delete_each (annotations wrapper)
                                    (Dict.keys inject_annotations) with
      | (Return _, cleared) =>
          (Return (MkFunction cleared new_params),
           MkFunction cleared new_params)
      | (Raise e, cleared) => (Raise e, MkFunction cleared new_params)
      end
  end.

End PublicUtils.

(** ** aioinject/providers.py: the type hints of a provider *)

Module ProviderHints.
Import Providers.





End ProviderHints.

(** The error the specification describes for a failed construction: an
    exception of class [ConstructionError] that wraps the factory's
    exception. *)
Definition is_ConstructionError (raised original : Exc) : Prop :=
  exc_class raised = "ConstructionError"
  ∧ exc_context raised = Some original.

(** ** Concrete objects used in the examples *)

Module Scenarios.
Import Providers.

(** The factory state of the examples is a call counter.  [no_hints] is
    what resolving the hints of a function without annotations gives. *)
Definition no_hints : Lookup (gmap string Ann) := Found ∅.

(** [def boom(): raise RuntimeError("boom")]: the body counts the call and
    raises. *)
Definition boom_error : Exc := MkExc 7 "RuntimeError" "boom" None.

Definition boom : Factory nat :=
  MkFactory 1 (Some "boom") false (λ _ n, (Raise boom_error, S n))
            false None (AClass "function") no_hints ∅
            (λ a, Found a) false false None.

(** [async def aboom(): raise RuntimeError("boom")]. *)
Definition aboom : Factory nat :=
  MkFactory 2 (Some "aboom") true (λ _ n, (Raise boom_error, S n))
            false None (AClass "function") no_hints ∅
            (λ a, Found a) false false None.

(** [def counter() -> Counter]: the body counts the call and returns a new
    object named after the count. *)
Definition counter : Factory nat :=
  MkFactory 3 (Some "counter") false (λ _ n, (Return (Plain (S n)), S n))
            false None (AClass "function")
            (Found {["return" := AClass "Counter"]})
            {["return" := AClass "Counter"]}
            (λ a, Found a) false false None.

(** Under [from __future__ import annotations]:
    [def make(dep: Missing): ...], with [Missing] not defined when the
    provider is created and no return annotation. *)
Definition missing_name : Exc :=
  MkExc 8 "NameError" "name 'Missing' is not defined" None.

Definition make : Factory nat :=
  MkFactory 4 (Some "make") false (λ _ n, (Return (Plain 0), n))
            false None (AClass "function")
            (NameError missing_name)
            {["dep" := AStr "Missing"]}
            (λ a, NameError missing_name) false false None.

(** [def plain(): ...] without any annotation. *)
Definition unannotated : Factory nat :=
  MkFactory 5 (Some "unannotated") false (λ _ n, (Return (Plain 0), n))
            false None (AClass "function") no_hints ∅
            (λ a, Found a) false false None.

(** [Singleton(counter, Counter)]. *)
Definition counter_provider : Provider string nat :=
  FromFactory Singleton counter "Counter" None.

(** A request for [Counter], which has no dependencies;
    [hash_runs_python] tells whether the type is requested under a key
    whose [__hash__] is Python code. *)
Definition counter_request (hash_runs_python : bool)
  : Resolver.Request (K:=string) (W:=nat) :=
  Resolver.MkRequest counter_provider []
    (λ _ s w, (Return (Plain 0), s, w)) hash_runs_python.

(** Resources.  Each is an instance of a class deriving from
    [ContextDecorator] whose [__enter__] returns a plain object. *)
Definition resource (n : nat) (leave : option Exc -> Outcome bool) : Value :=
  generator_cm n (MkProtocol (Return (Plain n)) leave).

(** [__exit__] returns a false value. *)
Definition calm (n : nat) : Value := resource n (λ _, Return false).

(** [__exit__] raises a new [KeyError] while nothing is being handled. *)
Definition failing (n : nat) : Value :=
  resource n (λ _, Raise (MkExc n "KeyError" "" None)).

(** [__exit__] raises a new [KeyError] while [handled] is being handled,
    which is then its [__context__]. *)
Definition failing_while_handling (handled : Exc) (n : nat) : Value :=
  resource n (λ _, Raise (MkExc n "KeyError" "" (Some handled))).

(** An exception being handled when a store is closed. *)
Definition handled_error : Exc := MkExc 99 "RuntimeError" "" None.

(** [__exit__] returns a true value. *)
Definition swallowing (n : nat) : Value := resource n (λ _, Return true).

(** A generator whose [finally] block raises: the new exception has what
    was thrown into the generator as its [__context__]. *)
Definition failing_in_finally (n : nat) : Value :=
  resource n (λ thrown, Raise (MkExc n "ValueError" "" thrown)).

(** An asynchronous counterpart of [calm]. *)
Definition async_calm (n : nat) : Value :=
  async_generator_cm n (MkProtocol (Return (Plain n)) (λ _, Return false)).

(** A class with [__enter__] and [__exit__] only, such as a file object. *)
Definition file_like (n : nat) : Value :=
  plain_cm n (MkProtocol (Return (Plain n)) (λ _, Return false)).

(** The store after entering the given objects, in order, through
    [enter_sync_context]. *)
Definition entered_sync (objs : list Value) : InstanceStore string :=
  foldl (λ s obj, (InstanceStore.enter_sync_context s obj).2)
        InstanceStore.__init__ objs.

Definition entered_async (objs : list Value) : InstanceStore string :=
  foldl (λ s obj, (InstanceStore.enter_context s obj).2)
        InstanceStore.__init__ objs.

End Scenarios.

(** ** More concrete objects *)

Module Examples.
Import Providers.

(** [def sessions() -> Iterator[Session]: yield ...] *)
Definition sessions : Factory nat :=
  MkFactory 6 (Some "sessions") false (λ _ n, (Return (Plain 0), n))
            false None (AClass "function")
            (Found {["return" := AAlias OIterator [AClass "Session"]]})
            {["return" := AAlias OIterator [AClass "Session"]]}
            (λ a, Found a) false true None.

(** [def items() -> typing.Iterator: yield ...], the annotation without
    an argument. *)
Definition items : Factory nat :=
  MkFactory 7 (Some "items") false (λ _ n, (Return (Plain 0), n))
            false None (AClass "function")
            (Found {["return" := AAlias OIterator []]})
            {["return" := AAlias OIterator []]}
            (λ a, Found a) false true None.

(** The function of [tests/utils/test_utils.py]:
    [def func(a: int, b: Annotated[int, Inject],
              c: Annotated[int, Inject(impl=bool)]) -> None]. *)
Definition func : Function :=
  MkFunction
    [("a", AClass "int");
     ("b", AAnnotated (AClass "int") [AInjectClass]);
     ("c", AAnnotated (AClass "int") [AInject 1]);
     ("return", AClass "NoneType")]
    ["a"; "b"; "c"].

(** Every annotation of the examples is already a type. *)
Definition evaluated (a : Ann) : Outcome Ann := Return a.

(** An evaluation in which the name [Missing] is not defined. *)
Definition missing (a : Ann) : Outcome Ann :=
  match a with
  | AStr "Missing" => Raise Scenarios.missing_name
  | _ => Return a
  end.

(** [def marked_return() -> Annotated[int, Inject]] *)
Definition marked_return : list (string * Ann) :=
  [("x", AClass "int");
   ("return", AAnnotated (AClass "int") [AInjectClass])].

(** [Transient(counter, Counter)]. *)
Definition transient_counter : Provider string nat :=
  FromFactory Transient Scenarios.counter "Counter" None.




(** An instance of a class with [__call__]: it has no [__qualname__], and
    its hints resolve to nothing. *)
Definition callable_instance : Factory nat :=
  MkFactory 8 None false (λ _ n, (Return (Plain 0), n))
            false None (AClass "Maker") (Found ∅) ∅
            (λ a, Found a) false false None.

(** A function for which [_get_type_hints] itself raises a [KeyError]. *)
Definition lookup_failure : Exc := MkExc 9 "KeyError" "T" None.

Definition unhintable : Factory nat :=
  MkFactory 9 (Some "unhintable") false (λ _ n, (Return (Plain 0), n))
            false None (AClass "function") (KeyErrorIn lookup_failure) ∅
            (λ a, Found a) false false None.

(** A resource whose [__enter__] raises. *)
Definition refusing (n : nat) : Value :=
  generator_cm n (MkProtocol (Raise Scenarios.boom_error)
                             (λ _, Return false)).

End Examples.

(** * Properties *)

Unset Implicit Arguments.

(** ** Providers *)

Module ProviderFacts.
Import Providers.

(** Calling a factory that is not a coroutine function runs its body. *)
Lemma call_sync {W} (f : Factory W) kwargs w :
  iscoroutinefunction f = false → call f kwargs w = body f kwargs w.
Proof. unfold call. by intros ->. Qed.

(** [Scoped.provide] runs the body of the factory exactly once, whatever
    the shape of the factory. *)
Lemma provide_runs_body {W} (f : Factory W) kwargs w :
  Scoped.provide f kwargs w = body f kwargs w.
Proof.
  unfold Scoped.provide, Scoped.is_async, Scoped.provide_sync, await_call.
  destruct (iscoroutinefunction f) eqn:E; [done|]. by apply call_sync.
Qed.

(** C9: an [Object] provider returns the wrapped value unchanged from both
    construction paths, for every keyword mapping, and its dependency list
    is empty. *)
Theorem object_provider_returns_value {W} (v : Value) (type_ : option Ann)
    (type_of_v : Ann) (kwargs : gmap string Value) (w : W) :
  let p : Provider Ann W := Object.__init__ v type_ type_of_v in
  Provider.provide_sync p kwargs w = (Return v, w)
  ∧ Provider.provide p kwargs w = (Return v, w)
  ∧ (Provider.collect_dependencies p Object.type_hints).1 = Return []
  ∧ (∀ later_hints,
       (Provider.collect_dependencies
          (Provider.collect_dependencies p Object.type_hints).2
          later_hints).1 = Return []).
Proof. by cbn. Qed.

(** C7, as the code has it: when the body of the bound factory raises [e],
    [provide] raises that very exception object [e] to its caller, and so
    does [provide_sync] for a factory that is not a coroutine function;
    nothing wraps it and no type is attached.  The factory state afterwards
    is the state after the single run of the body: construction is not
    retried. *)
Theorem factory_failure_propagates_unchanged {K W} (cls : ScopedClass)
    (f : Factory W) (t : K) (deps : option (list Dependency))
    (kwargs : gmap string Value) (w w' : W) (e : Exc) :
  body f kwargs w = (Raise e, w') →
  let p := FromFactory cls f t deps in
  Provider.provide p kwargs w = (Raise e, w')
  ∧ (iscoroutinefunction f = false →
     Provider.provide_sync p kwargs w = (Raise e, w')).
Proof.
  intros Hbody p. split.
  - cbn. by rewrite provide_runs_body.
  - intros Hsync. cbn. unfold Scoped.provide_sync. by rewrite call_sync.
Qed.

Lemma factory_failure_propagates_unchanged_witness :
  Provider.provide (FromFactory Singleton Scenarios.aboom "T" None) ∅ 0
    = (Raise Scenarios.boom_error, 1)
  ∧ Provider.provide_sync (FromFactory Scoped Scenarios.boom "T" None) ∅ 0
    = (Raise Scenarios.boom_error, 1).
Proof.
  split.
  - apply (factory_failure_propagates_unchanged
             Singleton Scenarios.aboom "T" None ∅ 0 1 Scenarios.boom_error
             eq_refl).
  - by apply (factory_failure_propagates_unchanged
             Scoped Scenarios.boom "T" None ∅ 0 1 Scenarios.boom_error
             eq_refl).
Defined.

(** C7 as stated fails: the exception that reaches the caller of
    [provide_sync] is the factory's own [RuntimeError], not a
    [ConstructionError] wrapping it. *)
Lemma construction_error_is_not_raised :
  ∃ raised w',
    Provider.provide_sync (FromFactory Scoped Scenarios.boom "T" None) ∅ 0
      = (Raise raised, w')
    ∧ ¬ is_ConstructionError raised Scenarios.boom_error.
Proof.
  exists Scenarios.boom_error, 1. split; [done|].
  intros [Hclass _]. discriminate Hclass.
Qed.

(** C8 at the failing input: [make] has no explicit type and no return
    annotation at all, and resolving its hints raises [NameError]; creating
    the provider raises the [KeyError] of the unguarded
    [__annotations__["return"]], not the [ValueError] that reports a
    missing return type. *)
Theorem unresolved_hints_raise_KeyError :
  Scoped.__init__ Scoped Scenarios.make None
    = Raise (KeyError "return" (Some Scenarios.missing_name))
  ∧ exc_class (KeyError "return" (Some Scenarios.missing_name))
      ≠ "ValueError".
Proof. split; [reflexivity | discriminate]. Qed.

(** Where the conversion is in place, creating the provider raises the
    [ValueError]: hints that resolve but have no ["return"] entry, and a
    return annotation that cannot be evaluated. *)
Lemma missing_return_type_raises_ValueError {W} (cls : ScopedClass)
    (f : Factory W) :
  isclass f = false →
  is_Some (__qualname__ f) →
  (∀ o, factory_origin f = Some o → isclass_origin o = false) →
  (∃ hints, unwrapped_type_hints f = Found hints ∧ hints !! "return" = None)
  ∨ (∃ e ret e', unwrapped_type_hints f = NameError e
       ∧ __annotations__ f !! "return" = Some ret
       ∧ get_return_annotation f ret = NameError e') →
  ∃ e, Scoped.__init__ cls f None = Raise e ∧ exc_class e = "ValueError".
Proof.
  intros Hclass [qualname Hname] Horigin Hcases.
  assert (Hhinted : ∃ e, hinted_return_type f = Raise e
                         ∧ exc_class e = "ValueError").
  { unfold hinted_return_type, no_return_type_error. rewrite Hname.
    destruct Hcases as [(hints & -> & ->) | (e & ret & e' & -> & -> & ->)];
      eauto. }
  destruct Hhinted as (e & Hhinted & He). exists e. split; [|done].
  unfold Scoped.__init__, _guess_return_type. rewrite Hclass, Hhinted.
  destruct (factory_origin f) as [o|] eqn:Ho; [|done].
  by rewrite (Horigin o eq_refl).
Qed.

(** Construction never consults the annotations: whatever [provide] and
    [provide_sync] raise was raised by the body of the factory. *)
Lemma resolution_raises_only_what_the_body_raises {K W} (p : Provider K W)
    (kwargs : gmap string Value) (w w' : W) (e : Exc) :
  Provider.provide p kwargs w = (Raise e, w')
  ∨ Provider.provide_sync p kwargs w = (Raise e, w') →
  ∃ cls f t deps, p = FromFactory cls f t deps
                  ∧ body f kwargs w = (Raise e, w').
Proof.
  destruct p as [cls f t deps | v t deps]; cbn.
  - intros Hraise. exists cls, f, t, deps. split; [done|].
    destruct Hraise as [Hraise | Hraise].
    + by rewrite provide_runs_body in Hraise.
    + unfold Scoped.provide_sync, call in Hraise.
      by destruct (iscoroutinefunction f).
  - by intros [?|?].
Qed.

End ProviderFacts.

(** ** Unwinding an exit stack *)

Module UnwindFacts.
Import Contextlib.

Lemma accepted_app assert_sync s1 s2 :
  accepted assert_sync (s1 ++ s2)
  = accepted assert_sync s1 && accepted assert_sync s2.
Proof. apply forallb_app. Qed.

Lemma accepted_rev assert_sync stack :
  accepted assert_sync (rev stack) = accepted assert_sync stack.
Proof.
  induction stack as [|c stack IH]; [done|]. cbn [rev].
  rewrite accepted_app, IH. cbn. rewrite andb_true_r. apply andb_comm.
Qed.

Lemma released_call_exit frame_exc c st :
  released (call_exit frame_exc c st) = released st ++ [owner c].
Proof. unfold call_exit. by destruct (cb c _) as [[]|]. Qed.

(** Every accepted entry is popped and called: the loop leaves nothing on
    the deque and calls the owners in popping order, whatever the callbacks
    return or raise. *)
Lemma exit_loop_calls_all assert_sync frame_exc popping st :
  accepted assert_sync popping = true →
  ∃ st', exit_loop assert_sync frame_exc popping st = (st', [], false)
         ∧ released st' = released st ++ (owner <$> popping).
Proof.
  revert st. induction popping as [|c rest IH]; intros st Hacc.
  - exists st. by rewrite app_nil_r.
  - cbn in Hacc. apply andb_true_iff in Hacc as [Hc Hrest].
    cbn [exit_loop].
    replace (assert_sync && negb (is_sync c)) with false
      by (destruct assert_sync, (is_sync c); done).
    destruct (IH (call_exit frame_exc c st) Hrest) as (st' & -> & Hrel).
    exists st'. split; [done|].
    rewrite Hrel, released_call_exit, <- app_assoc. done.
Qed.


(** Unwinding an accepted stack calls every owner, last entered first, and
    empties the deque. *)
Lemma exit_with_releases_all assert_sync frame_exc stack exc :
  accepted assert_sync stack = true →
  ∃ r, exit_with assert_sync frame_exc stack exc
       = (r, owner <$> rev stack, []).
Proof.
  intros Hacc. unfold exit_with.
  destruct (exit_loop_calls_all assert_sync frame_exc (rev stack)
              (MkUnwinding exc false false [] [])) as (st' & -> & Hrel).
  { by rewrite accepted_rev. }
  cbn in Hrel. rewrite <- Hrel.
  destruct (pending_raise st'); [destruct (exc_details st')|]; eauto.
Qed.

(** Unwinding an empty stack does nothing and raises nothing. *)
Lemma exit_with_empty assert_sync frame_exc :
  exit_with assert_sync frame_exc [] None = (Return false, [], []).
Proof. done. Qed.




Lemma accepted_async stack : accepted false stack = true.
Proof. by induction stack. Qed.



(** Unwinding with no exception handed in runs the callbacks as releases
    one after the other, in popping order, and raises what is pending at
    the end. *)
Lemma exit_loop_in_order assert_sync frame_exc popping st :
  accepted assert_sync popping = true →
  pending_raise st = bool_decide (is_Some (exc_details st)) →
  let st' := (exit_loop assert_sync frame_exc popping st).1.1 in
  exc_details st'
  = foldl (after_release frame_exc) (exc_details st) (cb <$> popping)
  ∧ pending_raise st' = bool_decide (is_Some (exc_details st')).
Proof.
  revert st. induction popping as [|c rest IH]; intros st Hacc Hst; [done|].
  cbn in Hacc. apply andb_true_iff in Hacc as [Hc Hrest].
  cbn [exit_loop].
  replace (assert_sync && negb (is_sync c)) with false
    by (destruct assert_sync, (is_sync c); done).
  cbn [fmap list_fmap foldl].
  assert (Hstep : exc_details (call_exit frame_exc c st)
                  = after_release frame_exc (exc_details st) (cb c)
                  ∧ pending_raise (call_exit frame_exc c st)
                    = bool_decide
                        (is_Some (exc_details (call_exit frame_exc c st)))).
  { unfold call_exit, after_release.
    by destruct (cb c (exc_details st)) as [[|]|e]. }
  destruct Hstep as [Hexc Hpend].
  destruct (IH (call_exit frame_exc c st) Hrest Hpend) as [Hexc' Hpend'].
  split; [|done]. cbn in Hexc'. by rewrite Hexc', Hexc.
Qed.

Lemma exit_with_in_order assert_sync frame_exc stack :
  accepted assert_sync stack = true →
  (exit_with assert_sync frame_exc stack None).1.1
  = match release_in_order frame_exc (cb <$> rev stack) with
    | Some e => Raise e
    | None => Return false
    end.
Proof.
  intros Hacc. unfold exit_with, release_in_order.
  set (init := MkUnwinding None false false [] []).
  assert (Hrev : accepted assert_sync (rev stack) = true)
    by (by rewrite accepted_rev).
  pose proof (exit_loop_in_order assert_sync frame_exc (rev stack) init
                Hrev eq_refl) as [Hexc Hpend].
  destruct (exit_loop_calls_all assert_sync frame_exc (rev stack) init Hrev)
    as (st' & Hloop & _).
  rewrite Hloop in Hexc, Hpend |- *. cbn in Hexc, Hpend |- *.
  rewrite Hpend, <- Hexc. by destruct (exc_details st').
Qed.



End UnwindFacts.

(** ** Instance stores *)

Module StoreFacts.
Import Providers Contextlib.
Section facts.
Context {K : Type} `{Countable K} {W : Type}.
Implicit Types (self : InstanceStore K) (provider : Provider K W).

Lemma add_transient self provider obj :
  lifetime provider = transient →
  InstanceStore.add self provider obj = self.
Proof. unfold InstanceStore.add. intros ->. by case_decide. Qed.

Lemma add_cached self provider obj :
  lifetime provider ≠ transient →
  InstanceStore.add self provider obj
  = MkInstanceStore (<[type_ provider := obj]> (_cache self))
                    (_exit_stack self) (_sync_exit_stack self).
Proof. unfold InstanceStore.add. intros ?. by case_decide. Qed.

(** A type whose providers are all transient stays out of the cache. *)
Lemma add_all_skips_transient self (calls : list (Provider K W * Value))
    (t : K) :
  Forall (λ c, type_ c.1 = t → lifetime c.1 = transient) calls →
  _cache self !! t = None →
  _cache (InstanceStore.add_all self calls) !! t = None.
Proof.
  revert self. induction calls as [|[q v] calls IH]; intros self Hall Hnone.
  - done.
  - apply Forall_cons in Hall as [Hq Hall]. cbn in Hq.
    cbn [InstanceStore.add_all foldl]. apply IH; [done|]. cbn.
    destruct (decide (lifetime q = transient)) as [Ht|Ht].
    + by rewrite add_transient.
    + rewrite add_cached by done. cbn.
      rewrite lookup_insert_ne; [done|]. intros Heq. by apply Ht, Hq.
Qed.

(** C3: [add] stores the instance under the provider's type when the
    lifetime is not transient, and changes nothing else; for a transient
    provider it leaves the store as it is and raises nothing.  So a type
    that only transient providers are added for is never in the cache:
    [get] keeps answering the sentinel and [lock] / [sync_lock] keep
    yielding [True], so every request constructs again. *)
Theorem add_caches_unless_transient self provider obj :
  (lifetime provider ≠ transient →
     InstanceStore.get (InstanceStore.add self provider obj) provider
       = Some obj
     ∧ (∀ other : Provider K W,
          type_ other ≠ type_ provider →
          InstanceStore.get (InstanceStore.add self provider obj) other
          = InstanceStore.get self other)
     ∧ _exit_stack (InstanceStore.add self provider obj) = _exit_stack self
     ∧ _sync_exit_stack (InstanceStore.add self provider obj)
       = _sync_exit_stack self)
  ∧ (lifetime provider = transient →
     InstanceStore.add self provider obj = self)
  ∧ (∀ calls : list (Provider K W * Value),
       Forall (λ c, type_ c.1 = type_ provider → lifetime c.1 = transient)
              calls →
       _cache self !! type_ provider = None →
       let after := InstanceStore.add_all self calls in
       InstanceStore.get after provider = None
       ∧ InstanceStore.lock after provider = true
       ∧ InstanceStore.sync_lock after provider = true).
Proof.
  split; [|split].
  - intros Hlt. rewrite add_cached by done.
    unfold InstanceStore.get. cbn. split; [apply lookup_insert_eq|].
    split; [|done]. intros other Hne. by rewrite lookup_insert_ne.
  - apply add_transient.
  - intros calls Hall Hfresh after.
    assert (Hnone : _cache after !! type_ provider = None).
    { by apply add_all_skips_transient. }
    unfold InstanceStore.get, InstanceStore.lock, InstanceStore.sync_lock.
    rewrite Hnone. by rewrite bool_decide_eq_true_2.
Qed.

(** *** Entering resources *)

Lemma enter_sync_context_other self obj :
  isinstance_ContextDecorator obj = false →
  InstanceStore.enter_sync_context self obj = (Return obj, self).
Proof.
  unfold InstanceStore.enter_sync_context, Utils.enter_sync_context_maybe.
  intros ->. by destruct self.
Qed.

Lemma enter_context_other self obj :
  isinstance_ContextDecorator obj = false →
  isinstance_AsyncContextDecorator obj = false →
  InstanceStore.enter_context self obj = (Return obj, self).
Proof.
  unfold InstanceStore.enter_context, Utils.enter_context_maybe.
  intros -> ->. by destruct self.
Qed.

(** What [enter_sync_context] does with a [ContextDecorator] that was
    entered successfully. *)
Lemma enter_sync_context_pushes self obj r self' :
  isinstance_ContextDecorator obj = true →
  InstanceStore.enter_sync_context self obj = (Return r, self') →
  ∃ p, sync_protocol obj = Some p ∧ on_enter p = Return r
       ∧ self' = MkInstanceStore (_cache self) (_exit_stack self)
                   (_sync_exit_stack self
                    ++ [MkExitCallback (ident_of obj) true (on_exit p)]).
Proof.
  unfold InstanceStore.enter_sync_context, Utils.enter_sync_context_maybe,
    enter_context.
  intros ->. destruct (sync_protocol obj) as [p|]; [|done].
  destruct (on_enter p) as [v|e] eqn:Hp; [|done].
  intros [= <- <-]. by exists p.
Qed.

(** The same for [enter_context], naming the protocol. *)
Lemma enter_context_pushes_protocol self obj r self' :
  isinstance_ContextDecorator obj = true
  ∨ isinstance_AsyncContextDecorator obj = true →
  InstanceStore.enter_context self obj = (Return r, self') →
  ∃ p sync, Utils.protocol_entered obj = Some p ∧ on_enter p = Return r
       ∧ self' = MkInstanceStore (_cache self)
                   (_exit_stack self
                    ++ [MkExitCallback (ident_of obj) sync (on_exit p)])
                   (_sync_exit_stack self).
Proof.
  unfold InstanceStore.enter_context, Utils.enter_context_maybe,
    Utils.protocol_entered, enter_context, enter_async_context.
  intros Hdec. destruct (isinstance_ContextDecorator obj).
  - destruct (sync_protocol obj) as [p|]; [|done].
    destruct (on_enter p) as [v|e] eqn:Hp; [|done].
    intros [= <- <-]. by exists p, true.
  - destruct Hdec as [?| ->]; [done|].
    destruct (async_protocol obj) as [p|]; [|done].
    destruct (on_enter p) as [v|e] eqn:Hp; [|done].
    intros [= <- <-]. by exists p, false.
Qed.

(** What [enter_context] does with a decorator that was entered
    successfully: the entry is synchronous for a [ContextDecorator] and
    asynchronous otherwise. *)
Lemma enter_context_pushes self obj r self' :
  isinstance_ContextDecorator obj = true
  ∨ isinstance_AsyncContextDecorator obj = true →
  InstanceStore.enter_context self obj = (Return r, self') →
  ∃ p sync, on_enter p = Return r
       ∧ self' = MkInstanceStore (_cache self)
                   (_exit_stack self
                    ++ [MkExitCallback (ident_of obj) sync (on_exit p)])
                   (_sync_exit_stack self).
Proof.
  unfold InstanceStore.enter_context, Utils.enter_context_maybe,
    enter_context, enter_async_context.
  intros Hdec. destruct (isinstance_ContextDecorator obj).
  - destruct (sync_protocol obj) as [p|]; [|done].
    destruct (on_enter p) as [v|e] eqn:Hp; [|done].
    intros [= <- <-]. by exists p, true.
  - destruct Hdec as [?| ->]; [done|].
    destruct (async_protocol obj) as [p|]; [|done].
    destruct (on_enter p) as [v|e] eqn:Hp; [|done].
    intros [= <- <-]. by exists p, false.
Qed.

(** An exit stack never shrinks or changes when something is entered. *)
Lemma enter_sync_context_extends self obj r self' :
  InstanceStore.enter_sync_context self obj = (r, self') →
  _cache self' = _cache self ∧ _exit_stack self' = _exit_stack self
  ∧ (_sync_exit_stack self' = _sync_exit_stack self
     ∨ ∃ p v, isinstance_ContextDecorator obj = true
         ∧ sync_protocol obj = Some p ∧ on_enter p = Return v
         ∧ r = Return v
         ∧ _sync_exit_stack self'
           = _sync_exit_stack self
             ++ [MkExitCallback (ident_of obj) true (on_exit p)]).
Proof.
  unfold InstanceStore.enter_sync_context, Utils.enter_sync_context_maybe,
    enter_context.
  destruct (isinstance_ContextDecorator obj); [|intros [= <- <-]; auto].
  destruct (sync_protocol obj) as [p|]; [|intros [= <- <-]; auto].
  destruct (on_enter p) as [v|e] eqn:Hp; intros [= <- <-]; cbn; [|auto].
  do 2 (split; [done|]). right. by exists p, v.
Qed.

Lemma enter_context_extends self obj r self' :
  InstanceStore.enter_context self obj = (r, self') →
  _cache self' = _cache self
  ∧ _sync_exit_stack self' = _sync_exit_stack self
  ∧ (_exit_stack self' = _exit_stack self
     ∨ ∃ p v sync,
         (isinstance_ContextDecorator obj = true
          ∨ isinstance_AsyncContextDecorator obj = true)
         ∧ on_enter p = Return v ∧ r = Return v
         ∧ _exit_stack self'
           = _exit_stack self
             ++ [MkExitCallback (ident_of obj) sync (on_exit p)]).
Proof.
  unfold InstanceStore.enter_context, Utils.enter_context_maybe,
    enter_context, enter_async_context.
  destruct (isinstance_ContextDecorator obj).
  - destruct (sync_protocol obj) as [p|]; [|intros [= <- <-]; auto].
    destruct (on_enter p) as [v|e] eqn:Hp; intros [= <- <-]; cbn; [|auto].
    do 2 (split; [done|]). right. exists p, v, true. auto.
  - destruct (isinstance_AsyncContextDecorator obj);
      [|intros [= <- <-]; auto].
    destruct (async_protocol obj) as [p|]; [|intros [= <- <-]; auto].
    destruct (on_enter p) as [v|e] eqn:Hp; intros [= <- <-]; cbn; [|auto].
    do 2 (split; [done|]). right. exists p, v, false. auto.
Qed.

(** C10: [enter_sync_context] enters a value and registers its release
    action only when the value is an instance of [ContextDecorator], and
    [enter_context] only when it is an instance of [ContextDecorator] or
    [AsyncContextDecorator]; any other value, a plain context manager
    included, comes back unchanged and the store stays as it was. *)
Theorem only_decorators_are_entered self obj :
  (isinstance_ContextDecorator obj = false →
     InstanceStore.enter_sync_context self obj = (Return obj, self))
  ∧ (∀ r self',
       InstanceStore.enter_sync_context self obj = (r, self') →
       _sync_exit_stack self' ≠ _sync_exit_stack self →
       ∃ p v, isinstance_ContextDecorator obj = true
         ∧ sync_protocol obj = Some p ∧ on_enter p = Return v
         ∧ r = Return v
         ∧ _sync_exit_stack self'
           = _sync_exit_stack self
             ++ [MkExitCallback (ident_of obj) true (on_exit p)])
  ∧ (isinstance_ContextDecorator obj = false →
     isinstance_AsyncContextDecorator obj = false →
     InstanceStore.enter_context self obj = (Return obj, self))
  ∧ (∀ r self',
       InstanceStore.enter_context self obj = (r, self') →
       _exit_stack self' ≠ _exit_stack self →
       ∃ p v sync,
         (isinstance_ContextDecorator obj = true
          ∨ isinstance_AsyncContextDecorator obj = true)
         ∧ on_enter p = Return v ∧ r = Return v
         ∧ _exit_stack self'
           = _exit_stack self
             ++ [MkExitCallback (ident_of obj) sync (on_exit p)])
  ∧ (∀ i p,
       InstanceStore.enter_sync_context self (plain_cm i p)
         = (Return (plain_cm i p), self)
       ∧ InstanceStore.enter_context self (plain_cm i p)
         = (Return (plain_cm i p), self)).
Proof.
  split; [apply enter_sync_context_other|].
  split.
  { intros r self' Henter Hne.
    by destruct (enter_sync_context_extends _ _ _ _ Henter)
      as (_ & _ & [?|?]). }
  split; [apply enter_context_other|].
  split.
  { intros r self' Henter Hne.
    by destruct (enter_context_extends _ _ _ _ Henter)
      as (_ & _ & [?|?]). }
  intros i p. split.
  - by apply enter_sync_context_other.
  - by apply enter_context_other.
Qed.

(** *** Closing a store *)

Lemma close_releases_all frame_exc self :
  InstanceStore.sync_stack_ok self = true →
  ∃ r, InstanceStore.close frame_exc self
       = (r, owner <$> rev (_sync_exit_stack self),
          MkInstanceStore (_cache self) (_exit_stack self) []).
Proof.
  intros Hok. unfold InstanceStore.close, InstanceStore.__exit__, __exit__.
  destruct (UnwindFacts.exit_with_releases_all
              true frame_exc (_sync_exit_stack self) None Hok) as [r ->].
  eauto.
Qed.

Lemma aclose_releases_all frame_exc self :
  ∃ r, InstanceStore.aclose frame_exc self
       = (r, owner <$> rev (_exit_stack self),
          MkInstanceStore (_cache self) [] (_sync_exit_stack self)).
Proof.
  unfold InstanceStore.aclose, InstanceStore.__aexit__, __aexit__.
  destruct (UnwindFacts.exit_with_releases_all
              false frame_exc (_exit_stack self) None
              (UnwindFacts.accepted_async _)) as [r ->].
  eauto.
Qed.

(** What closing raises: the releases of the stack, last entered first,
    run one after the other, and what is pending at the end is raised. *)
Lemma close_in_order frame_exc self :
  InstanceStore.sync_stack_ok self = true →
  (InstanceStore.close frame_exc self).1.1
  = raise_pending
      (release_in_order frame_exc (cb <$> rev (_sync_exit_stack self))).
Proof.
  intros Hok.
  pose proof (UnwindFacts.exit_with_in_order
                true frame_exc (_sync_exit_stack self) Hok) as Hexit.
  unfold InstanceStore.close, InstanceStore.__exit__, __exit__.
  destruct (exit_with true frame_exc (_sync_exit_stack self) None)
    as [[r log] stack]. cbn in Hexit |- *. subst r.
  by destruct (release_in_order _ _).
Qed.

Lemma aclose_in_order frame_exc self :
  (InstanceStore.aclose frame_exc self).1.1
  = raise_pending
      (release_in_order frame_exc (cb <$> rev (_exit_stack self))).
Proof.
  pose proof (UnwindFacts.exit_with_in_order
                false frame_exc (_exit_stack self)
                (UnwindFacts.accepted_async _)) as Hexit.
  unfold InstanceStore.aclose, InstanceStore.__aexit__, __aexit__.
  destruct (exit_with false frame_exc (_exit_stack self) None)
    as [[r log] stack]. cbn in Hexit |- *. subst r.
  by destruct (release_in_order _ _).
Qed.

(** The outcome and the releases of [close] depend on the synchronous
    stack only, and those of [aclose] on the other one. *)
Lemma close_same_stack frame_exc self self' :
  _sync_exit_stack self' = _sync_exit_stack self →
  (InstanceStore.close frame_exc self').1
  = (InstanceStore.close frame_exc self).1.
Proof.
  unfold InstanceStore.close, InstanceStore.__exit__. intros ->.
  by destruct (__exit__ frame_exc (_sync_exit_stack self) None)
    as [[r log] stack].
Qed.

Lemma aclose_same_stack frame_exc self self' :
  _exit_stack self' = _exit_stack self →
  (InstanceStore.aclose frame_exc self').1
  = (InstanceStore.aclose frame_exc self).1.
Proof.
  unfold InstanceStore.aclose, InstanceStore.__aexit__. intros ->.
  by destruct (__aexit__ frame_exc (_exit_stack self) None)
    as [[r log] stack].
Qed.

Lemma close_nothing_entered frame_exc (cache : gmap K Value) stack :
  InstanceStore.close frame_exc (MkInstanceStore cache stack [])
  = (Return (), [], MkInstanceStore cache stack []).
Proof. done. Qed.

Lemma aclose_nothing_entered frame_exc (cache : gmap K Value) stack :
  InstanceStore.aclose frame_exc (MkInstanceStore cache [] stack)
  = (Return (), [], MkInstanceStore cache [] stack).
Proof. done. Qed.

(** The stores the methods build keep the synchronous stack well formed. *)
Lemma sync_stack_ok_init :
  InstanceStore.sync_stack_ok (InstanceStore.__init__ (K:=K)) = true.
Proof. done. Qed.

Lemma sync_stack_ok_enter_sync_context self obj :
  InstanceStore.sync_stack_ok self = true →
  InstanceStore.sync_stack_ok
    (InstanceStore.enter_sync_context self obj).2 = true.
Proof.
  intros Hok.
  destruct (InstanceStore.enter_sync_context self obj) as [r self'] eqn:E.
  destruct (enter_sync_context_extends _ _ _ _ E)
    as (_ & _ & [Hsame | (p & v & _ & _ & _ & _ & Hpush)]); cbn.
  - unfold InstanceStore.sync_stack_ok. by rewrite Hsame.
  - unfold InstanceStore.sync_stack_ok.
    rewrite Hpush, UnwindFacts.accepted_app.
    unfold InstanceStore.sync_stack_ok in Hok. by rewrite Hok.
Qed.

Lemma sync_stack_ok_enter_context self obj :
  InstanceStore.sync_stack_ok self = true →
  InstanceStore.sync_stack_ok (InstanceStore.enter_context self obj).2 = true.
Proof.
  intros Hok.
  destruct (InstanceStore.enter_context self obj) as [r self'] eqn:E.
  destruct (enter_context_extends _ _ _ _ E) as (_ & Hsame & _); cbn.
  unfold InstanceStore.sync_stack_ok. by rewrite Hsame.
Qed.

Lemma sync_stack_ok_add self provider obj :
  InstanceStore.sync_stack_ok self = true →
  InstanceStore.sync_stack_ok (InstanceStore.add self provider obj) = true.
Proof. unfold InstanceStore.add. by case_decide. Qed.

(** C4, as the code has it: when resources [a], [b] and [c] are entered
    in that order through [enter_sync_context], [close] releases [c], then
    [b], then [a], and after them what the store held before: the release
    of [c] runs first, handed no exception, and each later release is
    handed what is pending after the one before; what is pending at the end
    is what [close] raises.  [aclose] releases none of the three.  The
    same holds for [enter_context] and [aclose], and then [close] releases
    none of the three. *)
Theorem resources_released_in_reverse_order frame_exc self a b c :
  (∀ ra rb rc s1 s2 s3,
     InstanceStore.sync_stack_ok self = true →
     isinstance_ContextDecorator a = true →
     isinstance_ContextDecorator b = true →
     isinstance_ContextDecorator c = true →
     InstanceStore.enter_sync_context self a = (Return ra, s1) →
     InstanceStore.enter_sync_context s1 b = (Return rb, s2) →
     InstanceStore.enter_sync_context s2 c = (Return rc, s3) →
     (InstanceStore.close frame_exc s3).1.2
     = ident_of c :: ident_of b :: ident_of a
       :: (InstanceStore.close frame_exc self).1.2
     ∧ (∃ pa pb pc,
          sync_protocol a = Some pa ∧ sync_protocol b = Some pb
          ∧ sync_protocol c = Some pc
          ∧ (InstanceStore.close frame_exc s3).1.1
            = raise_pending
                (release_in_order frame_exc
                   (on_exit pc :: on_exit pb :: on_exit pa
                    :: (cb <$> rev (_sync_exit_stack self)))))
     ∧ (InstanceStore.aclose frame_exc s3).1
       = (InstanceStore.aclose frame_exc self).1)
  ∧ (∀ ra rb rc s1 s2 s3,
     isinstance_ContextDecorator a = true
       ∨ isinstance_AsyncContextDecorator a = true →
     isinstance_ContextDecorator b = true
       ∨ isinstance_AsyncContextDecorator b = true →
     isinstance_ContextDecorator c = true
       ∨ isinstance_AsyncContextDecorator c = true →
     InstanceStore.enter_context self a = (Return ra, s1) →
     InstanceStore.enter_context s1 b = (Return rb, s2) →
     InstanceStore.enter_context s2 c = (Return rc, s3) →
     (InstanceStore.aclose frame_exc s3).1.2
     = ident_of c :: ident_of b :: ident_of a
       :: (InstanceStore.aclose frame_exc self).1.2
     ∧ (∃ pa pb pc,
          Utils.protocol_entered a = Some pa
          ∧ Utils.protocol_entered b = Some pb
          ∧ Utils.protocol_entered c = Some pc
          ∧ (InstanceStore.aclose frame_exc s3).1.1
            = raise_pending
                (release_in_order frame_exc
                   (on_exit pc :: on_exit pb :: on_exit pa
                    :: (cb <$> rev (_exit_stack self)))))
     ∧ (InstanceStore.close frame_exc s3).1
       = (InstanceStore.close frame_exc self).1).
Proof.
  split.
  - intros ra rb rc s1 s2 s3 Hok Ha Hb Hc E1 E2 E3.
    destruct (enter_sync_context_pushes _ _ _ _ Ha E1) as (pa & Hpa & _ & ->).
    destruct (enter_sync_context_pushes _ _ _ _ Hb E2) as (pb & Hpb & _ & ->).
    destruct (enter_sync_context_pushes _ _ _ _ Hc E3) as (pc & Hpc & _ & ->).
    match goal with |- context [InstanceStore.close _ ?s] =>
      assert (Hok3 : InstanceStore.sync_stack_ok s = true) end.
    { unfold InstanceStore.sync_stack_ok in *. cbn [_sync_exit_stack].
      rewrite !UnwindFacts.accepted_app, Hok. done. }
    split; [|split].
    + destruct (close_releases_all frame_exc self Hok) as [r ->].
      destruct (close_releases_all frame_exc _ Hok3) as [r' ->].
      cbn. by rewrite !rev_app_distr.
    + exists pa, pb, pc. do 3 (split; [done|]).
      rewrite (close_in_order frame_exc _ Hok3). cbn [_sync_exit_stack].
      by rewrite !rev_app_distr.
    + by apply aclose_same_stack.
  - intros ra rb rc s1 s2 s3 Ha Hb Hc E1 E2 E3.
    destruct (enter_context_pushes_protocol _ _ _ _ Ha E1)
      as (pa & fa & Hpa & _ & ->).
    destruct (enter_context_pushes_protocol _ _ _ _ Hb E2)
      as (pb & fb & Hpb & _ & ->).
    destruct (enter_context_pushes_protocol _ _ _ _ Hc E3)
      as (pc & fc & Hpc & _ & ->).
    split; [|split].
    + destruct (aclose_releases_all frame_exc self) as [r ->].
      match goal with |- (InstanceStore.aclose _ ?s).1.2 = _ =>
        destruct (aclose_releases_all frame_exc s) as [r' ->] end.
      cbn. by rewrite !rev_app_distr.
    + exists pa, pb, pc. do 3 (split; [done|]).
      rewrite aclose_in_order. cbn [_exit_stack].
      by rewrite !rev_app_distr.
    + by apply close_same_stack.
Qed.

(** C6: closing a store a second time releases nothing and raises nothing,
    whatever the first close did; and closing a store nothing was entered
    into releases nothing and raises nothing.  The same holds for
    [aclose]. *)
Theorem close_is_idempotent frame_exc frame_exc' self :
  InstanceStore.sync_stack_ok self = true →
  (let closed := (InstanceStore.close frame_exc self).2 in
   InstanceStore.close frame_exc' closed = (Return (), [], closed))
  ∧ (let closed := (InstanceStore.aclose frame_exc self).2 in
     InstanceStore.aclose frame_exc' closed = (Return (), [], closed))
  ∧ InstanceStore.close frame_exc (InstanceStore.__init__ (K:=K))
    = (Return (), [], InstanceStore.__init__)
  ∧ InstanceStore.aclose frame_exc (InstanceStore.__init__ (K:=K))
    = (Return (), [], InstanceStore.__init__).
Proof.
  intros Hok. split; [|split; [|done]].
  - destruct (close_releases_all frame_exc self Hok) as [r ->].
    apply close_nothing_entered.
  - destruct (aclose_releases_all frame_exc self) as [r ->].
    apply aclose_nothing_entered.
Qed.


End facts.

Import Scenarios.

Lemma add_caches_unless_transient_witness :
  let cached : Provider string nat := FromFactory Singleton counter "T" None in
  let fresh : Provider string nat := FromFactory Transient counter "T" None in
  InstanceStore.get
    (InstanceStore.add InstanceStore.__init__ cached (Plain 1)) cached
    = Some (Plain 1)
  ∧ InstanceStore.add InstanceStore.__init__ fresh (Plain 1)
    = InstanceStore.__init__
  ∧ InstanceStore.lock
      (InstanceStore.add_all InstanceStore.__init__
         [(fresh, Plain 1); (fresh, Plain 2)]) fresh = true.
Proof.
  intros cached fresh.
  pose proof (add_caches_unless_transient
                InstanceStore.__init__ cached (Plain 1)) as (Hc & _ & _).
  pose proof (add_caches_unless_transient
                InstanceStore.__init__ fresh (Plain 1)) as (_ & Ht & Hinv).
  split; [apply Hc; discriminate|]. split; [by apply Ht|].
  apply (Hinv [(fresh, Plain 1); (fresh, Plain 2)]); [|done].
  by repeat constructor.
Defined.

Lemma only_decorators_are_entered_witness :
  InstanceStore.enter_sync_context (K:=string) InstanceStore.__init__
    (file_like 1)
  = (Return (file_like 1), InstanceStore.__init__)
  ∧ InstanceStore.enter_context (K:=string) InstanceStore.__init__ (Plain 2)
  = (Return (Plain 2), InstanceStore.__init__).
Proof.
  pose proof (only_decorators_are_entered (K:=string)
                InstanceStore.__init__ (file_like 1)) as (Hs & _).
  pose proof (only_decorators_are_entered (K:=string)
                InstanceStore.__init__ (Plain 2)) as (_ & _ & Ha & _).
  split; [by apply Hs | by apply Ha].
Defined.

Lemma resources_released_in_reverse_order_witness :
  (InstanceStore.close None (entered_sync [calm 1; failing 2; calm 3])).1
  = (Raise (MkExc 2 "KeyError" "" None), [3; 2; 1])
  ∧ (InstanceStore.aclose None
       (entered_async [calm 1; async_calm 2; calm 3])).1.2
    = [3; 2; 1].
Proof.
  pose proof (resources_released_in_reverse_order (K:=string)
                None InstanceStore.__init__ (calm 1) (failing 2) (calm 3))
    as [Hsync _].
  pose proof (resources_released_in_reverse_order (K:=string)
                None InstanceStore.__init__ (calm 1) (async_calm 2) (calm 3))
    as [_ Hasync].
  split.
  - destruct (Hsync (Plain 1) (Plain 2) (Plain 3)
                (entered_sync [calm 1]) (entered_sync [calm 1; failing 2])
                (entered_sync [calm 1; failing 2; calm 3]))
      as (Hlog & (pa & pb & pc & [= <-] & [= <-] & [= <-] & Hraised) & _);
      [reflexivity..|].
    apply injective_projections; [exact Hraised | exact Hlog].
  - destruct (Hasync (Plain 1) (Plain 2) (Plain 3)
                (entered_async [calm 1])
                (entered_async [calm 1; async_calm 2])
                (entered_async [calm 1; async_calm 2; calm 3]))
      as (Hlog & _);
      [by left | by right | by left | reflexivity..|].
    exact Hlog.
Defined.

(** C4 as stated fails when the three are entered through both methods:
    with [1] and [3] entered through [enter_sync_context] and [2] through
    [enter_context], [close] releases [3] and [1] only, and [aclose]
    releases [2] only. *)
Lemma mixed_entries_are_not_released_together :
  let s1 := (InstanceStore.enter_sync_context (K:=string)
               InstanceStore.__init__ (calm 1)).2 in
  let s2 := (InstanceStore.enter_context s1 (async_calm 2)).2 in
  let s3 := (InstanceStore.enter_sync_context s2 (calm 3)).2 in
  (InstanceStore.close None s3).1.2 = [3; 1]
  ∧ (InstanceStore.aclose None s3).1.2 = [2]
  ∧ (InstanceStore.close None s3).1.2 ≠ [3; 2; 1]
  ∧ (InstanceStore.aclose None s3).1.2 ≠ [3; 2; 1].
Proof. repeat split; discriminate. Qed.

Lemma close_is_idempotent_witness :
  let self := entered_sync [failing 0; calm 1] in
  (InstanceStore.close None self).1.2 = [1; 0]
  ∧ InstanceStore.close None (InstanceStore.close None self).2
    = (Return (), [], (InstanceStore.close None self).2).
Proof.
  intros self. split; [reflexivity|].
  apply (close_is_idempotent None None self eq_refl).
Defined.


(** When [close] is called while an exception is being handled, the
    failure of the resource released first becomes the [__context__] of
    the failure that is raised. *)
Lemma handled_exception_chains_the_failures :
  let self := entered_sync [failing_while_handling handled_error 10;
                            failing_while_handling handled_error 11] in
  ∃ e, (InstanceStore.close (Some handled_error) self).1.1 = Raise e
       ∧ chain e = [10; 11].
Proof. eexists. split; reflexivity. Qed.


End StoreFacts.

(** ** Singleton stores and their requesters *)

Module SingletonFacts.
Import Providers.
Section facts.
Context {K : Type} `{Countable K} {W : Type}.
Implicit Types (self : SingletonStore K) (provider : Provider K W).

Lemma table_set_table path self t :
  SingletonStore.table path (SingletonStore.set_table path self t) = t.
Proof. by destruct path. Qed.

Lemma base_set_table path self t :
  base (SingletonStore.set_table path self t) = base self.
Proof. by destruct path. Qed.

Lemma locked_set_table path self t key :
  SingletonStore.locked path (SingletonStore.set_table path self t) key
  = default false (t !! key).
Proof. unfold SingletonStore.locked. by rewrite table_set_table. Qed.

Lemma getitem_lookup (d : gmap K bool) key key' :
  default false (SingletonStore.getitem d key !! key')
  = default false (d !! key').
Proof.
  unfold SingletonStore.getitem. destruct (d !! key) eqn:E; [done|].
  destruct (decide (key = key')) as [<-|Hne].
  - by rewrite lookup_insert_eq, E.
  - by rewrite lookup_insert_ne.
Qed.

(** The other table is not touched by an operation on [path]. *)
Lemma table_set_table_other path path' self t :
  path ≠ path' →
  SingletonStore.table path' (SingletonStore.set_table path self t)
  = SingletonStore.table path' self.
Proof. by destruct path, path'. Qed.


(** *** Requesters on one path *)

Import Resolver.
Implicit Types (q : Request (K:=K) (W:=W)).






























(** *** Progress *)







Lemma run_app q s1 s2 g :
  run q (s1 ++ s2) g = run q s2 (run q s1 g).
Proof. revert g. induction s1 as [|i s1 IH]; intros g; [done|]. apply IH. Qed.



End facts.

Import Resolver Scenarios.




(** It also fails for two threads when hashing the requested type runs
    Python code: both miss in [_sync_locks], each stores a lock of its
    own, the second replacing the first, and each acquires its own lock;
    the provider is asked twice. *)
Lemma racing_lookups_construct_twice :
  let g := run (counter_request true)
               [0; 1; 0; 1; 0; 1; 0; 1; 0; 1; 0; 1; 0; 1; 0; 1; 0; 1; 0; 1;
                0; 1; 0; 1]
               (init SingletonStore.__init__ [ViaSyncLock; ViaSyncLock] 0) in
  all_finished g = true
  ∧ executions g = 2
  ∧ replaced g = [false]
  ∧ observed g = [Return (Some (Plain 1)); Return (Some (Plain 2))].
Proof. vm_compute. done. Qed.

End SingletonFacts.

(** ** More on providers *)

Module ProviderExtras.
Import Providers Annotations.


Lemma collect_dependencies_app hints1 hints2 :
  collect_dependencies (hints1 ++ hints2)
  = collect_dependencies hints1 ++ collect_dependencies hints2.
Proof.
  induction hints1 as [|[n h] hints1 IH]; [done|]. cbn.
  destruct (_get_annotation_args h) as [dep_type args].
  destruct (_find_inject_marker_in_annotation_args args); [|done].
  cbn. by rewrite IH.
Qed.

Lemma collect_dependencies_cons n h hints :
  collect_dependencies ((n, h) :: hints)
  = (if marked h then [MkDependency n (_get_annotation_args h).1] else [])
    ++ collect_dependencies hints.
Proof.
  cbn. unfold marked. destruct (_get_annotation_args h) as [dep_type args].
  cbn. by destruct (_find_inject_marker_in_annotation_args args).
Qed.

(** X1: [collect_dependencies] yields a dependency exactly for the hints on
    which it finds an [Inject] marker after the first type argument; the
    dependency has the name of the hint and that first argument as its
    type, and the dependencies come in the order of the hints. *)
Theorem dependencies_are_the_marked_hints hints :
  (∀ d, d ∈ collect_dependencies hints
        ↔ ∃ hint, (name d, hint) ∈ hints ∧ marked hint = true
                  ∧ dep_type_ d = (_get_annotation_args hint).1)
  ∧ name <$> collect_dependencies hints `sublist_of` hints.*1.
Proof.
  split.
  - intros d. induction hints as [|[n h] hints IH].
    + cbn. split; [by intros ?%elem_of_nil|].
      by intros (? & ?%elem_of_nil & _).
    + rewrite collect_dependencies_cons, elem_of_app, IH. split.
      * intros [Hd | (hint & Hin & Hm & Ht)].
        -- destruct (marked h) eqn:Hm; [|by apply elem_of_nil in Hd].
           apply list_elem_of_singleton in Hd as ->. cbn.
           exists h. split; [left|done].
        -- exists hint. split; [by right|done].
      * intros (hint & Hin & Hm & Ht).
        apply elem_of_cons in Hin as [[= Hn Hh] | Hin].
        -- left. subst. rewrite Hm. apply list_elem_of_singleton.
           destruct d as [dn dt]. cbn in *. by subst.
        -- right. by exists hint.
  - induction hints as [|[n h] hints IH]; [done|].
    rewrite collect_dependencies_cons, fmap_app. cbn [fmap list_fmap fst].
    destruct (marked h); cbn.
    + by apply sublist_skip.
    + by apply sublist_cons.
Qed.

(** X2: the marker test does not tell [Annotated] from other parametrised
    types: a hint [o[t, *metadata]], for any origin [o], gives what
    [Annotated[t, *metadata]] gives, so it is a dependency of type [t] as
    soon as the later arguments hold a marker. *)
Theorem any_alias_with_a_marker_is_a_dependency before after n o t metadata :
  collect_dependencies (before ++ (n, AAlias o (t :: metadata)) :: after)
  = collect_dependencies (before ++ (n, AAnnotated t metadata) :: after)
  ∧ (marked (AAlias o (t :: metadata)) = true →
     MkDependency n t
     ∈ collect_dependencies (before ++ (n, AAlias o (t :: metadata)) :: after)).
Proof.
  split.
  - by rewrite !collect_dependencies_app, !collect_dependencies_cons.
  - intros Hm. rewrite collect_dependencies_app, collect_dependencies_cons.
    rewrite Hm. rewrite !elem_of_app. right. left. by left.
Qed.


(** *** Guessing the provided type *)


(** X5: a generator function annotated with a bare generator type, such
    as [typing.Iterator] without an argument, cannot be registered without
    an explicit type: creating the provider raises [IndexError]. *)
Theorem bare_generator_annotation_raises_IndexError {W} (f : Factory W) o :
  isclass f = false →
  (∀ o', factory_origin f = Some o' → isclass_origin o' = false) →
  hinted_return_type f = Return (AAlias o []) →
  in_GENERATORS o = true ∧ isgeneratorfunction f = true
  ∨ in_ASYNC_GENERATORS o = true ∧ isasyncgenfunction f = true →
  Scoped.__init__ Scoped f None = Raise (IndexError None).
Proof.
  intros Hclass Horigin Hh Hgen.
  unfold Scoped.__init__, _guess_return_type. rewrite Hclass, Hh.
  replace (match factory_origin f with
           | Some o' => isclass_origin o' | None => false end) with false
    by (destruct (factory_origin f) as [o'|] eqn:E; [|done];
        by rewrite (Horigin o' eq_refl)).
  cbn.
  replace (in_ASYNC_GENERATORS o && isasyncgenfunction f
           || in_GENERATORS o && isgeneratorfunction f) with true; [done|].
  destruct Hgen as [[-> ->] | [-> ->]]; [|done]. by rewrite orb_true_r.
Qed.

(** X6: [_guess_return_type] unwraps [Iterator[T]] / [Generator[T, ...]]
    only for a generator function and [AsyncIterator[T]] /
    [AsyncGenerator[T, ...]] only for an asynchronous generator function;
    an annotation of the other kind, or on a function that is no
    generator, is kept whole.  After unwrapping, [Self] is replaced by the
    class the factory is bound to. *)
Theorem guess_unwraps_generators_of_the_same_kind {W} (f : Factory W)
    o t rest :
  isclass f = false →
  (∀ o', factory_origin f = Some o' → isclass_origin o' = false) →
  hinted_return_type f = Return (AAlias o (t :: rest)) →
  _guess_return_type f =
    Return (if in_ASYNC_GENERATORS o && isasyncgenfunction f
               || in_GENERATORS o && isgeneratorfunction f
            then (if is_Self t then default t (__self__ f) else t)
            else AAlias o (t :: rest)).
Proof.
  intros Hclass Horigin Hh.
  unfold _guess_return_type. rewrite Hclass, Hh.
  replace (match factory_origin f with
           | Some o' => isclass_origin o' | None => false end) with false
    by (destruct (factory_origin f) as [o'|] eqn:E; [|done];
        by rewrite (Horigin o' eq_refl)).
  cbn.
  destruct (in_ASYNC_GENERATORS o && isasyncgenfunction f
            || in_GENERATORS o && isgeneratorfunction f); [|done].
  by destruct (is_Self t), (__self__ f).
Qed.

End ProviderExtras.

(** ** More on instance stores *)

Module StoreExtras.
Import Providers Contextlib.
Section facts.
Context {K : Type} `{Countable K} {W : Type}.
Implicit Types (self : InstanceStore K) (provider : Provider K W).

(** X7: a failed enter registers nothing.  When [enter_sync_context] or
    [enter_context] raises, the store is as before; this happens only for
    an instance of the decorator classes, and the exception is that of its
    [__enter__] / [__aenter__], or a [TypeError] when the type lacks the
    protocol methods. *)
Theorem failed_enter_registers_nothing self obj e self' :
  (InstanceStore.enter_sync_context self obj = (Raise e, self') →
   self' = self ∧ isinstance_ContextDecorator obj = true
   ∧ match sync_protocol obj with
     | Some p => on_enter p = Raise e
     | None => exc_class e = "TypeError"
     end)
  ∧ (InstanceStore.enter_context self obj = (Raise e, self') →
     self' = self
     ∧ match isinstance_ContextDecorator obj,
             isinstance_AsyncContextDecorator obj with
       | true, _ =>
           match sync_protocol obj with
           | Some p => on_enter p = Raise e
           | None => exc_class e = "TypeError"
           end
       | false, true =>
           match async_protocol obj with
           | Some p => on_enter p = Raise e
           | None => exc_class e = "TypeError"
           end
       | false, false => False
       end).
Proof.
  split.
  - unfold InstanceStore.enter_sync_context, Utils.enter_sync_context_maybe,
      enter_context.
    destruct (isinstance_ContextDecorator obj); [|done].
    destruct (sync_protocol obj) as [p|].
    + destruct (on_enter p) as [v|e0]; [done|].
      intros [= <- <-]. by destruct self.
    + intros [= <- <-]. by destruct self.
  - unfold InstanceStore.enter_context, Utils.enter_context_maybe,
      enter_context, enter_async_context.
    destruct (isinstance_ContextDecorator obj).
    + destruct (sync_protocol obj) as [p|].
      * destruct (on_enter p) as [v|e0]; [done|].
        intros [= <- <-]. by destruct self.
      * intros [= <- <-]. by destruct self.
    + destruct (isinstance_AsyncContextDecorator obj); [|done].
      destruct (async_protocol obj) as [p|].
      * destruct (on_enter p) as [v|e0]; [done|].
        intros [= <- <-]. by destruct self.
      * intros [= <- <-]. by destruct self.
Qed.

Lemma close_frame frame_exc self exc_val :
  _cache (InstanceStore.__exit__ frame_exc self exc_val).2 = _cache self
  ∧ _exit_stack (InstanceStore.__exit__ frame_exc self exc_val).2
    = _exit_stack self.
Proof.
  unfold InstanceStore.__exit__.
  by destruct (__exit__ frame_exc (_sync_exit_stack self) exc_val)
    as [[r log] stack].
Qed.

Lemma aclose_frame frame_exc self exc_val :
  _cache (InstanceStore.__aexit__ frame_exc self exc_val).2 = _cache self
  ∧ _sync_exit_stack (InstanceStore.__aexit__ frame_exc self exc_val).2
    = _sync_exit_stack self.
Proof.
  unfold InstanceStore.__aexit__.
  by destruct (__aexit__ frame_exc (_exit_stack self) exc_val)
    as [[r log] stack].
Qed.

(** X8: [close] and [aclose] each unwind their own stack.  A resource
    entered through [enter_context] is neither released nor forgotten by
    [close], which does what it would have done without it and leaves the
    cache alone; [aclose] afterwards releases it first. *)
Theorem close_and_aclose_unwind_their_own_stack frame_exc frame_exc'
    self obj r self' :
  isinstance_ContextDecorator obj = true
  ∨ isinstance_AsyncContextDecorator obj = true →
  InstanceStore.enter_context self obj = (Return r, self') →
  let closed := InstanceStore.close frame_exc self' in
  closed.1 = (InstanceStore.close frame_exc self).1
  ∧ _exit_stack closed.2 = _exit_stack self'
  ∧ _cache closed.2 = _cache self
  ∧ (InstanceStore.aclose frame_exc' closed.2).1.2
    = ident_of obj :: (InstanceStore.aclose frame_exc' self).1.2.
Proof.
  intros Hdec Henter closed. subst closed.
  destruct (StoreFacts.enter_context_pushes _ _ _ _ Hdec Henter)
    as (p & sync & _ & ->).
  destruct (close_frame frame_exc
              (MkInstanceStore (_cache self)
                 (_exit_stack self
                  ++ [MkExitCallback (ident_of obj) sync (on_exit p)])
                 (_sync_exit_stack self)) None) as [Hc He].
  unfold InstanceStore.close. rewrite He, Hc. cbn [_exit_stack _cache].
  split; [|split; [done|split; [done|]]].
  - unfold InstanceStore.__exit__. cbn [_sync_exit_stack].
    by destruct (__exit__ frame_exc (_sync_exit_stack self) None)
      as [[r0 log] stack].
  - match goal with |- (InstanceStore.aclose _ ?s).1.2 = _ =>
      destruct (StoreFacts.aclose_releases_all frame_exc' s) as [r1 ->] end.
    destruct (StoreFacts.aclose_releases_all frame_exc' self) as [r2 ->].
    cbn [fst snd]. rewrite He. cbn [_exit_stack]. by rewrite rev_app_distr.
Qed.

(** X9: when no release action raises, leaving a store raises nothing,
    with or without an exception passed to [__exit__] / [__aexit__]. *)
Theorem harmless_releases_never_make_close_raise frame_exc self exc_val :
  (InstanceStore.sync_stack_ok self = true →
   Forall (λ c, ∀ x, ∃ b, cb c x = Return b) (_sync_exit_stack self) →
   (InstanceStore.__exit__ frame_exc self exc_val).1.1 = Return ())
  ∧ (Forall (λ c, ∀ x, ∃ b, cb c x = Return b) (_exit_stack self) →
     (InstanceStore.__aexit__ frame_exc self exc_val).1.1 = Return ()).
Proof.
  assert (Hloop : ∀ assert_sync popping st,
            accepted assert_sync popping = true →
            Forall (λ c, ∀ x, ∃ b, cb c x = Return b) popping →
            pending_raise st = false →
            ∃ st', exit_loop assert_sync frame_exc popping st
                   = (st', [], false)
                   ∧ pending_raise st' = false).
  { intros assert_sync popping. induction popping as [|c rest IH];
      intros st Hacc Hall Hp; [by exists st|].
    cbn in Hacc. apply andb_true_iff in Hacc as [Hc Hrest].
    apply Forall_cons in Hall as [Hcb Hall]. cbn [exit_loop].
    replace (assert_sync && negb (is_sync c)) with false
      by (destruct assert_sync, (is_sync c); done).
    apply IH; [done..|].
    unfold call_exit. destruct (Hcb (exc_details st)) as [b ->].
    by destruct b. }
  assert (Hwith : ∀ assert_sync stack,
            accepted assert_sync stack = true →
            Forall (λ c, ∀ x, ∃ b, cb c x = Return b) stack →
            ∃ b, (exit_with assert_sync frame_exc stack exc_val).1.1
                 = Return b).
  { intros assert_sync stack Hacc Hall. unfold exit_with.
    destruct (Hloop assert_sync (rev stack)
                (MkUnwinding exc_val false false [] []))
      as (st' & -> & Hp); [by rewrite UnwindFacts.accepted_rev
                          | by apply List.Forall_rev | done |].
    rewrite Hp. cbn. eauto. }
  split.
  - intros Hok Hall. unfold InstanceStore.__exit__, __exit__.
    destruct (Hwith true _ Hok Hall) as [b Hb].
    destruct (exit_with true frame_exc (_sync_exit_stack self) exc_val)
      as [[r log] stack]. cbn in *. by subst r.
  - intros Hall. unfold InstanceStore.__aexit__, __aexit__.
    destruct (Hwith false _ (UnwindFacts.accepted_async _) Hall) as [b Hb].
    destruct (exit_with false frame_exc (_exit_stack self) exc_val)
      as [[r log] stack]. cbn in *. by subst r.
Qed.

(** X10: entering does not change what closing leaves behind: the store
    after [enter_sync_context] and [close] is the store after [close]
    alone, and it is the store before entering when the synchronous stack
    was empty. *)
Theorem entering_then_closing_restores_the_store frame_exc self obj r self' :
  InstanceStore.sync_stack_ok self = true →
  InstanceStore.enter_sync_context self obj = (r, self') →
  (InstanceStore.close frame_exc self').2
  = (InstanceStore.close frame_exc self).2
  ∧ (_sync_exit_stack self = [] →
     (InstanceStore.close frame_exc self').2 = self).
Proof.
  intros Hok Henter.
  assert (Hok' : InstanceStore.sync_stack_ok self' = true).
  { pose proof (StoreFacts.sync_stack_ok_enter_sync_context self obj Hok)
      as Hok'. by rewrite Henter in Hok'. }
  destruct (StoreFacts.enter_sync_context_extends _ _ _ _ Henter)
    as (Hc & He & _).
  destruct (StoreFacts.close_releases_all frame_exc self Hok) as [r1 ->].
  destruct (StoreFacts.close_releases_all frame_exc self' Hok') as [r2 ->].
  cbn. rewrite Hc, He. split; [done|]. intros Hnil. destruct self. cbn in *.
  by subst.
Qed.

(** X11: the cache is keyed by the type, not by the provider.  What a
    provider that is not transient adds is what [get] answers for every
    provider of the same type, transient ones included, for which [lock]
    and [sync_lock] then yield [False]; and a later [add] for the type
    replaces the instance. *)
Theorem cache_is_keyed_by_type self provider (other : Provider K W)
    obj obj' :
  type_ other = type_ provider →
  lifetime provider ≠ transient →
  InstanceStore.get (InstanceStore.add self provider obj) other = Some obj
  ∧ InstanceStore.lock (InstanceStore.add self provider obj) other = false
  ∧ InstanceStore.sync_lock (InstanceStore.add self provider obj) other
    = false
  ∧ (lifetime other ≠ transient →
     InstanceStore.add (InstanceStore.add self provider obj) other obj'
     = InstanceStore.add self other obj').
Proof.
  intros Ht Hl. rewrite StoreFacts.add_cached by done.
  unfold InstanceStore.get, InstanceStore.lock, InstanceStore.sync_lock.
  cbn. rewrite Ht, lookup_insert_eq. do 3 (split; [done|]).
  intros Hl'. rewrite !StoreFacts.add_cached by done. cbn.
  by rewrite Ht, insert_insert_eq.
Qed.

End facts.
End StoreExtras.

(** ** More on the locks of a singleton store *)

Module SingletonExtras.
Import Providers SingletonFacts.
Section facts.
Context {K : Type} `{Countable K} {W : Type}.
Implicit Types (self : SingletonStore K) (provider : Provider K W).

Lemma locked_other_key path self (t : gmap K bool) key key' b :
  key ≠ key' →
  SingletonStore.locked path
    (SingletonStore.set_table path self
       (<[key := b]> (SingletonStore.table path self))) key'
  = SingletonStore.locked path self key'.
Proof.
  intros Hne. rewrite locked_set_table. unfold SingletonStore.locked.
  by rewrite lookup_insert_ne.
Qed.

Lemma locked_other_path path path' self t key :
  path ≠ path' →
  SingletonStore.locked path' (SingletonStore.set_table path self t) key
  = SingletonStore.locked path' self key.
Proof.
  intros Hne. unfold SingletonStore.locked.
  by rewrite table_set_table_other.
Qed.

(** X12: the three steps of [lock] / [sync_lock] (looking up the lock,
    acquiring it, releasing it) leave the cache and the exit stacks alone,
    and change the state of no lock but that of the provider's type in the
    table of their own path. *)
Theorem lock_operations_touch_one_lock path self provider s' :
  (SingletonStore.begin path self provider).2 = s'
  ∨ SingletonStore.acquire path self provider = Some s'
  ∨ SingletonStore.release path self provider = s' →
  base s' = base self
  ∧ ∀ path' key,
      path' ≠ path ∨ key ≠ type_ provider →
      SingletonStore.locked path' s' key = SingletonStore.locked path' self key.
Proof.
  intros [Hb | [Ha | Hr]].
  - unfold SingletonStore.begin in Hb. case_decide; cbn in Hb; subst s'.
    + split; [apply base_set_table|]. intros path' key _.
      destruct (decide (path = path')) as [<-|Hne].
      * by rewrite locked_set_table, getitem_lookup.
      * by apply locked_other_path.
    + done.
  - unfold SingletonStore.acquire in Ha.
    destruct (SingletonStore.locked path self (type_ provider)); [done|].
    injection Ha as <-. split; [apply base_set_table|].
    intros path' key [Hp | Hk].
    + by apply locked_other_path.
    + destruct (decide (path = path')) as [<-|Hne].
      * apply (locked_other_key path self ∅); congruence.
      * by apply locked_other_path.
  - subst s'. unfold SingletonStore.release.
    split; [apply base_set_table|].
    intros path' key [Hp | Hk].
    + by apply locked_other_path.
    + destruct (decide (path = path')) as [<-|Hne].
      * apply (locked_other_key path self ∅); congruence.
      * by apply locked_other_path.
Qed.

Lemma enter_true path self provider held :
  SingletonStore.enter path self provider = Some (true, held) →
  _cache (base self) !! type_ provider = None
  ∧ SingletonStore.locked path self (type_ provider) = false
  ∧ base held = base self
  ∧ SingletonStore.locked path held (type_ provider) = true
  ∧ ∀ path', path' ≠ path →
      SingletonStore.locked path' held (type_ provider)
      = SingletonStore.locked path' self (type_ provider).
Proof.
  unfold SingletonStore.enter, SingletonStore.enter_while,
    SingletonStore.resume, SingletonStore.begin.
  case_decide as Hcache; [|done].
  unfold SingletonStore.acquire.
  rewrite locked_set_table, getitem_lookup.
  fold (SingletonStore.locked path self (type_ provider)).
  destruct (SingletonStore.locked path self (type_ provider)) eqn:Hl;
    [done|].
  intros [= _ <-]. split; [done|]. split; [done|].
  split; [by rewrite !base_set_table|].
  split; [by rewrite locked_set_table, lookup_insert_eq|].
  intros path' Hne. by rewrite !locked_other_path.
Qed.

Lemma enter_absent path self provider :
  _cache (base self) !! type_ provider = None →
  SingletonStore.enter path self provider
  = if SingletonStore.locked path self (type_ provider) then None
    else Some (true,
               SingletonStore.set_table path
                 (SingletonStore.set_table path self
                    (SingletonStore.getitem (SingletonStore.table path self)
                       (type_ provider)))
                 (<[type_ provider := true]>
                    (SingletonStore.getitem (SingletonStore.table path self)
                       (type_ provider)))).
Proof.
  intros Hc. unfold SingletonStore.enter, SingletonStore.enter_while,
    SingletonStore.resume, SingletonStore.begin.
  rewrite decide_True by done. unfold SingletonStore.acquire.
  rewrite locked_set_table, getitem_lookup.
  fold (SingletonStore.locked path self (type_ provider)).
  destruct (SingletonStore.locked path self (type_ provider)); [done|].
  unfold SingletonStore.yielded. rewrite !base_set_table, table_set_table.
  by rewrite bool_decide_eq_true_2.
Qed.

(** X13: what holding the lock of a type excludes.  After a caller was
    yielded [True], a second caller on the same path has to wait, while a
    caller on the other path, whose lock is free, is yielded [True] as
    well.  When the lock is released without an [add], the next caller is
    yielded [True] again; after an [add] of a provider that is not
    transient, callers are yielded [False] without waiting, even while the
    lock is still held, and [get] answers the instance. *)
Theorem lock_excludes_only_its_own_path path self provider held :
  SingletonStore.enter path self provider = Some (true, held) →
  SingletonStore.enter path held provider = None
  ∧ (∀ path', path' ≠ path →
       SingletonStore.locked path' self (type_ provider) = false →
       ∃ held', SingletonStore.enter path' held provider
                = Some (true, held'))
  ∧ (∃ held', SingletonStore.enter path
                (SingletonStore.release path held provider) provider
              = Some (true, held'))
  ∧ (∀ obj, lifetime provider ≠ transient →
       let cached := SingletonStore.add held provider obj in
       SingletonStore.enter path cached provider = Some (false, cached)
       ∧ SingletonStore.get cached provider = Some obj).
Proof.
  intros Henter.
  destruct (enter_true _ _ _ _ Henter) as (Hc & Hfree & Hb & Hl & Hother).
  assert (Hc' : _cache (base held) !! type_ provider = None)
    by (by rewrite Hb).
  split; [by rewrite enter_absent, Hl|]. split.
  { intros path' Hne Hfree'. rewrite enter_absent by done.
    rewrite Hother, Hfree' by done. eauto. }
  split.
  { rewrite enter_absent.
    - unfold SingletonStore.release.
      rewrite locked_set_table, lookup_insert_eq. cbn. eauto.
    - unfold SingletonStore.release. by rewrite base_set_table. }
  intros obj Hlt cached. subst cached.
  unfold SingletonStore.enter, SingletonStore.enter_while,
    SingletonStore.resume, SingletonStore.begin, SingletonStore.get,
    SingletonStore.add, InstanceStore.get.
  cbn [base]. rewrite StoreFacts.add_cached by done. cbn [_cache].
  rewrite lookup_insert_eq. by rewrite decide_False by done.
Qed.

End facts.
End SingletonExtras.

(** ** Dictionaries *)

Module DictFacts.
Section facts.
Context {A : Type}.
Implicit Types (d : list (string * A)) (key : string).

Lemma get_remove_eq d key : Dict.get (Dict.remove d key) key = None.
Proof.
  induction d as [|[k v] d IH]; [done|]. cbn.
  case_decide; [done|]. cbn. by rewrite decide_False.
Qed.

Lemma get_remove_ne d key key' :
  key ≠ key' → Dict.get (Dict.remove d key) key' = Dict.get d key'.
Proof.
  intros Hne. induction d as [|[k v] d IH]; [done|]. cbn.
  case_decide as Hk.
  - subst k. by rewrite decide_False.
  - cbn. by rewrite IH.
Qed.

Lemma remove_absent d key : Dict.get d key = None → Dict.remove d key = d.
Proof.
  induction d as [|[k v] d IH]; [done|]. cbn.
  case_decide; [done|]. intros Hd. by rewrite IH.
Qed.

Lemma get_None_keys d key : Dict.get d key = None ↔ key ∉ Dict.keys d.
Proof.
  induction d as [|[k v] d IH]; cbn.
  - split; [intros _; apply not_elem_of_nil|done].
  - case_decide as Hk.
    + subst k. split; [done|]. intros Hn. destruct Hn. by left.
    + rewrite IH, not_elem_of_cons. split; [by split|by intros [_ ?]].
Qed.

Lemma get_Some_elem d key v :
  Dict.well_formed d → (Dict.get d key = Some v ↔ (key, v) ∈ d).
Proof.
  unfold Dict.well_formed, Dict.keys.
  induction d as [|[k x] d IH]; cbn; intros Hwf.
  - split; [done|]. by intros ?%elem_of_nil.
  - apply NoDup_cons in Hwf as [Hk Hwf]. case_decide as Hd.
    + subst k. split.
      * intros [= ->]. by left.
      * intros [[= ->] | Hin]%elem_of_cons; [done|].
        destruct Hk. apply list_elem_of_fmap. by exists (key, v).
    + rewrite (IH Hwf). split; [by right|].
      intros [[= -> ->] | Hin]%elem_of_cons; [done|done].
Qed.

Lemma setitem_absent d key v :
  Dict.get d key = None → Dict.setitem d key v = d ++ [(key, v)].
Proof.
  induction d as [|[k x] d IH]; [done|]. cbn.
  case_decide; [done|]. intros Hd. by rewrite IH.
Qed.

Lemma get_app d1 d2 key :
  Dict.get (d1 ++ d2) key
  = match Dict.get d1 key with
    | Some v => Some v
    | None => Dict.get d2 key
    end.
Proof.
  induction d1 as [|[k x] d1 IH]; [done|]. cbn. by case_decide.
Qed.

Lemma elem_of_remove d key k v :
  (k, v) ∈ Dict.remove d key ↔ (k, v) ∈ d ∧ k ≠ key.
Proof.
  induction d as [|[k0 x] d IH]; cbn.
  - split; [by intros ?%elem_of_nil | by intros [?%elem_of_nil _]].
  - case_decide as Hk.
    + subst k0. rewrite IH, elem_of_cons. split.
      * intros [Hin Hne]. split; [by right|done].
      * intros [[[= -> ->] | Hin] Hne]; [done|by split].
    + rewrite !elem_of_cons, IH. split.
      * intros [[= -> ->] | [Hin Hne]]; [split; [by left|done]|].
        split; [by right|done].
      * intros [[[= -> ->] | Hin] Hne]; [by left|by right].
Qed.

Lemma keys_remove d key :
  Dict.keys (Dict.remove d key) = List.filter (λ k, negb (String.eqb k key)) (Dict.keys d).
Proof.
  unfold Dict.keys. induction d as [|[k x] d IH]; [done|]. cbn.
  case_decide as Hk.
  - subst k. by rewrite String.eqb_refl.
  - apply String.eqb_neq in Hk. rewrite Hk. cbn. by rewrite IH.
Qed.

Lemma well_formed_remove d key :
  Dict.well_formed d → Dict.well_formed (Dict.remove d key).
Proof.
  unfold Dict.well_formed. rewrite keys_remove.
  intros Hwf. apply NoDup_ListNoDup. apply List.NoDup_filter.
  by apply NoDup_ListNoDup.
Qed.

Lemma well_formed_snoc d key v :
  Dict.well_formed d → Dict.get d key = None →
  Dict.well_formed (d ++ [(key, v)]).
Proof.
  unfold Dict.well_formed, Dict.keys. intros Hwf Hn.
  rewrite fmap_app. apply NoDup_app. split; [done|]. split.
  - intros k Hk [->|?%elem_of_nil]%elem_of_cons; [|done].
    by apply get_None_keys in Hn.
  - cbn. apply NoDup_singleton.
Qed.

End facts.
End DictFacts.

(** ** Annotations and wrappers *)

Module AnnotationFacts.
Import Providers Annotations DictFacts.

Lemma get_type_hints_Return eval d hs :
  Typing.get_type_hints eval d = Return hs →
  Forall2 (λ x y, x.1 = y.1 ∧ eval x.2 = Return y.2) d hs.
Proof.
  revert hs. induction d as [|[n a] d IH]; intros hs; cbn.
  - intros [= <-]. constructor.
  - destruct (eval a) as [h|e] eqn:Ha; [|done].
    destruct (Typing.get_type_hints eval d) as [hs'|e]; [|done].
    intros [= <-]. constructor; [done|]. by apply IH.
Qed.

Lemma get_type_hints_Raise eval d e :
  Typing.get_type_hints eval d = Raise e →
  ∃ n a, (n, a) ∈ d ∧ eval a = Raise e.
Proof.
  induction d as [|[n a] d IH]; cbn; [done|].
  destruct (eval a) as [h|e0] eqn:Ha.
  - destruct (Typing.get_type_hints eval d) as [hs'|e0]; [done|].
    intros [= ->]. destruct (IH eq_refl) as (n' & a' & Hin & He).
    exists n', a'. split; [by right|done].
  - intros [= ->]. exists n, a. split; [by left|done].
Qed.

Lemma get_type_hints_total eval d :
  (∀ n a, (n, a) ∈ d → ∃ h, eval a = Return h) →
  ∃ hs, Typing.get_type_hints eval d = Return hs.
Proof.
  induction d as [|[n a] d IH]; intros Hall; cbn; [by eexists|].
  destruct (Hall n a) as [h ->]; [by left|].
  destruct IH as [hs ->]; [|by eexists].
  intros n' a' Hin. apply (Hall n'). by right.
Qed.

Lemma get_type_hints_elem eval d hs n h :
  Typing.get_type_hints eval d = Return hs →
  ((n, h) ∈ hs ↔ ∃ a, (n, a) ∈ d ∧ eval a = Return h).
Proof.
  intros Hf%get_type_hints_Return.
  induction Hf as [|[n0 a0] [n1 h1] d hs [Hn He] Hf IH]; cbn in *.
  - split; [by intros ?%elem_of_nil|]. by intros (? & ?%elem_of_nil & _).
  - subst n1. rewrite elem_of_cons, IH. split.
    + intros [[= -> ->] | (a & Hin & Ha)].
      * exists a0. split; [by left|done].
      * exists a. split; [by right|done].
    + intros (a & [[= -> ->] | Hin]%elem_of_cons & Ha).
      * left. congruence.
      * right. by exists a.
Qed.

Lemma get_type_hints_keys eval d hs :
  Typing.get_type_hints eval d = Return hs → Dict.keys hs = Dict.keys d.
Proof.
  intros Hf%get_type_hints_Return. unfold Dict.keys.
  induction Hf as [|[n0 a0] [n1 h1] d hs [Hn He] Hf IH]; [done|].
  cbn in *. by rewrite IH, Hn.
Qed.

Lemma get_type_hints_remove eval d hs key :
  Typing.get_type_hints eval d = Return hs →
  Typing.get_type_hints eval (Dict.remove d key)
  = Return (Dict.remove hs key).
Proof.
  revert hs. induction d as [|[n a] d IH]; intros hs; cbn.
  - by intros [= <-].
  - destruct (eval a) as [h|e] eqn:Ha; [|done].
    destruct (Typing.get_type_hints eval d) as [hs'|e]; [|done].
    intros [= <-]. cbn. case_decide.
    + by apply IH.
    + cbn. by rewrite Ha, (IH hs').
Qed.

Lemma filter_remove {A} (f : string * A → bool) d key :
  List.filter f (Dict.remove d key) = Dict.remove (List.filter f d) key.
Proof.
  induction d as [|[k v] d IH]; [done|]. cbn.
  case_decide as Hk.
  - destruct (f (k, v)); [|done]. cbn. by rewrite decide_True.
  - cbn. destruct (f (k, v)); [|done]. cbn. rewrite decide_False by done.
    by rewrite IH.
Qed.

Lemma keys_filter_sublist {A} (f : string * A → bool) d :
  Dict.keys (List.filter f d) `sublist_of` Dict.keys d.
Proof.
  unfold Dict.keys. induction d as [|x d IH]; [done|]. cbn.
  destruct (f x); cbn; [by apply sublist_skip | by apply sublist_cons].
Qed.

Lemma keys_remove_sublist {A} (d : list (string * A)) key :
  Dict.keys (Dict.remove d key) `sublist_of` Dict.keys d.
Proof.
  unfold Dict.keys. induction d as [|[k v] d IH]; [done|]. cbn.
  case_decide; cbn; [by apply sublist_cons | by apply sublist_skip].
Qed.

Lemma restored_equal {A} (d : list (string * A)) name :
  Dict.equal
    (match Dict.get d name with
     | Some value => Dict.setitem (Dict.remove d name) name value
     | None => Dict.remove d name
     end) d.
Proof.
  intros key. destruct (Dict.get d name) as [v|] eqn:Hd.
  - rewrite setitem_absent by apply get_remove_eq. rewrite get_app.
    destruct (decide (name = key)) as [<-|Hne].
    + rewrite get_remove_eq. cbn. by rewrite decide_True.
    + rewrite get_remove_ne by done.
      destruct (Dict.get d key); [done|]. cbn. by rewrite decide_False.
  - by rewrite remove_absent.
Qed.

(** X14: [remove_annotation] around a body that leaves the dictionary
    alone.  When the body returns, the dictionary holds the same items as
    before, and a removed annotation is now the last item; when the body
    raises, the annotation stays removed. *)
Theorem remove_annotation_restores {A B} (annotations : list (string * A))
    (name : string)
    (body : list (string * A) → Outcome B * list (string * A)) r :
  body (Dict.remove annotations name) = (r, Dict.remove annotations name) →
  let after := (remove_annotation annotations name body).2 in
  (remove_annotation annotations name body).1 = r
  ∧ match r with
    | Return _ =>
        Dict.equal after annotations
        ∧ after = Dict.remove annotations name
                  ++ match Dict.get annotations name with
                     | Some value => [(name, value)]
                     | None => []
                     end
    | Raise _ =>
        after = Dict.remove annotations name ∧ Dict.get after name = None
    end.
Proof.
  intros Hbody after. subst after. unfold remove_annotation. rewrite Hbody.
  destruct r as [b|e]; cbn.
  - split; [done|]. split; [apply restored_equal|].
    destruct (Dict.get annotations name) as [v|]; [|by rewrite app_nil_r].
    apply setitem_absent, get_remove_eq.
  - split; [done|]. split; [done|]. apply get_remove_eq.
Qed.

Lemma elem_of_filter {A} (f : A → bool) (l : list A) x :
  x ∈ List.filter f l ↔ x ∈ l ∧ f x = true.
Proof. rewrite !list_elem_of_In. apply filter_In. Qed.

Lemma get_inject_annotations_eq eval annotations :
  get_inject_annotations eval annotations
  = match Typing.get_type_hints eval (Dict.remove annotations "return") with
    | Return hints =>
        (Return (List.filter (λ h, has_marker h.2) hints),
         match Dict.get annotations "return" with
         | Some value =>
             Dict.setitem (Dict.remove annotations "return") "return" value
         | None => Dict.remove annotations "return"
         end)
    | Raise e => (Raise e, Dict.remove annotations "return")
    end.
Proof.
  unfold get_inject_annotations, remove_annotation.
  by destruct (Typing.get_type_hints eval _).
Qed.

(** X15: [get_inject_annotations] of [aioinject/_utils.py].  When it
    returns, the result holds exactly the evaluated annotations, other than
    ["return"], that carry an [Inject] marker among their arguments, in the
    order of [__annotations__], which holds the same items as before.  When
    it raises, the exception is that of evaluating an annotation other than
    ["return"], and the function is left without its return annotation. *)
Theorem inject_annotations_are_the_marked_parameters eval annotations :
  match get_inject_annotations eval annotations with
  | (Return inject, after) =>
      (∀ n h, (n, h) ∈ inject
              ↔ n ≠ "return" ∧ has_marker h = true
                ∧ ∃ a, (n, a) ∈ annotations ∧ eval a = Return h)
      ∧ Dict.keys inject `sublist_of` Dict.keys annotations
      ∧ Dict.equal after annotations
  | (Raise e, after) =>
      (∃ n a, (n, a) ∈ annotations ∧ n ≠ "return" ∧ eval a = Raise e)
      ∧ after = Dict.remove annotations "return"
      ∧ Dict.get after "return" = None
  end.
Proof.
  rewrite get_inject_annotations_eq.
  destruct (Typing.get_type_hints eval (Dict.remove annotations "return"))
    as [hints|e] eqn:Hh.
  - split; [|split; [|apply restored_equal]].
    + intros n h. rewrite elem_of_filter. cbn.
      rewrite (get_type_hints_elem _ _ _ n h Hh). split.
      * intros [(a & [Hin Hne]%elem_of_remove & Ha) Hm]. eauto.
      * intros (Hne & Hm & a & Hin & Ha). split; [|done].
        exists a. split; [|done]. by apply elem_of_remove.
    + etrans; [apply keys_filter_sublist|].
      rewrite (get_type_hints_keys _ _ _ Hh). apply keys_remove_sublist.
  - destruct (get_type_hints_Raise _ _ _ Hh)
      as (n & a & [Hin Hne]%elem_of_remove & Ha).
    split; [by exists n, a|]. split; [done|]. apply get_remove_eq.
Qed.

(** X17: the two versions of [get_inject_annotations] differ on the
    return annotation only.  When the one of [aioinject/utils.py] returns,
    the one of [aioinject/_utils.py] returns the same items without
    ["return"]; and the former does keep a return annotation that carries a
    marker. *)
Theorem public_get_inject_annotations_keeps_return eval annotations old :
  PublicUtils.get_inject_annotations eval annotations = Return old →
  (get_inject_annotations eval annotations).1
  = Return (Dict.remove old "return")
  ∧ (∀ a h, ("return", a) ∈ annotations → eval a = Return h →
       has_marker h = true → ("return", h) ∈ old).
Proof.
  unfold PublicUtils.get_inject_annotations.
  destruct (Typing.get_type_hints eval annotations) as [hints|e] eqn:Hh;
    [|done].
  intros [= <-]. split.
  - rewrite get_inject_annotations_eq.
    rewrite (get_type_hints_remove _ _ _ "return" Hh). cbn.
    by rewrite filter_remove.
  - intros a h Hin Ha Hm. apply elem_of_filter. split; [|done].
    apply (get_type_hints_elem _ _ _ "return" h Hh). by exists a.
Qed.

Lemma remove_filter {A} (d : list (string * A)) key :
  Dict.remove d key = List.filter (λ x, negb (String.eqb x.1 key)) d.
Proof.
  induction d as [|[k v] d IH]; [done|]. cbn. case_decide as Hk.
  - subst k. by rewrite String.eqb_refl.
  - apply String.eqb_neq in Hk. rewrite Hk. cbn. by rewrite IH.
Qed.

Lemma filter_filter {A} (f g : A → bool) l :
  List.filter f (List.filter g l) = List.filter (λ x, g x && f x) l.
Proof.
  induction l as [|x l IH]; [done|]. cbn.
  destruct (g x); cbn; [|done]. destruct (f x); by rewrite IH.
Qed.

Lemma filter_true {A} (f : A → bool) l :
  (∀ x, x ∈ l → f x = true) → List.filter f l = l.
Proof.
  induction l as [|x l IH]; [done|]. intros Hall. cbn.
  rewrite (Hall x) by (by left). f_equal. apply IH.
  intros y Hy. apply Hall. by right.
Qed.

Lemma filter_false {A} (f : A → bool) l :
  (∀ x, x ∈ l → f x = false) → List.filter f l = [].
Proof.
  induction l as [|x l IH]; [done|]. intros Hall. cbn.
  rewrite (Hall x) by (by left). apply IH.
  intros y Hy. apply Hall. by right.
Qed.

Lemma get_filter_keys {A} (p : string → bool) (d : list (string * A)) key :
  Dict.get (List.filter (λ x, p x.1) d) key
  = if p key then Dict.get d key else None.
Proof.
  induction d as [|[k v] d IH]; cbn; [by destruct (p key)|].
  destruct (p k) eqn:Hk; cbn; case_decide as Hd.
  - subst k. by rewrite Hk.
  - done.
  - subst k. rewrite Hk in IH |- *. done.
  - done.
Qed.

Lemma existsb_eqb names n :
  existsb (String.eqb n) names = true ↔ n ∈ names.
Proof.
  rewrite existsb_exists, list_elem_of_In. split.
  - by intros (x & Hin & ->%String.eqb_eq).
  - intros Hin. exists n. split; [done|apply String.eqb_refl].
Qed.

Lemma get_type_hints_filter eval (p : string → bool) d hs :
  Typing.get_type_hints eval d = Return hs →
  Typing.get_type_hints eval (List.filter (λ x, p x.1) d)
  = Return (List.filter (λ x, p x.1) hs).
Proof.
  revert hs. induction d as [|[n a] d IH]; intros hs; cbn.
  - by intros [= <-].
  - destruct (eval a) as [h|e] eqn:Ha; [|done].
    destruct (Typing.get_type_hints eval d) as [hs'|e]; [|done].
    intros [= <-]. cbn. destruct (p n); cbn.
    + by rewrite Ha, (IH hs').
    + by apply IH.
Qed.

(** Deleting distinct keys that are all present never raises and leaves
    the items with other keys, in their order. *)
Lemma delete_each_present d names :
  NoDup names →
  (∀ n, n ∈ names → Dict.get d n ≠ None) →
  delete_each d names
  = (Return (),
     List.filter (λ x, negb (existsb (String.eqb x.1) names)) d).
Proof.
  revert d. induction names as [|n names IH]; intros d Hnd Hall; cbn.
  - by rewrite filter_true.
  - apply NoDup_cons in Hnd as [Hn Hnd]. unfold Dict.delitem.
    destruct (Dict.get d n) eqn:Hg; [|by destruct (Hall n); [left|]].
    rewrite IH; [|done|].
    + rewrite remove_filter, filter_filter. f_equal.
      apply filter_ext. intros [k v]. cbn. by rewrite negb_orb.
    + intros n' Hn'. rewrite get_remove_ne by (intros ->; done).
      apply Hall. by right.
Qed.

(** X16: [clear_wrapper] on a function whose annotations evaluate.  It
    returns the wrapper without raising [KeyError]; the parameters with an
    [Inject] marker are gone from the signature and from
    [__annotations__], every other annotation is kept; and clearing the
    cleared wrapper again changes nothing. *)
Theorem clear_wrapper_strips_the_marked_parameters eval wrapper inject
    after :
  Dict.well_formed (annotations wrapper) →
  get_inject_annotations eval (annotations wrapper)
  = (Return inject, after) →
  ∃ cleared,
    clear_wrapper eval wrapper = (Return cleared, cleared)
    ∧ signature cleared
      = List.filter (λ p, negb (Dict.contains inject p)) (signature wrapper)
    ∧ (∀ n, Dict.get (annotations cleared) n
            = if Dict.contains inject n then None
              else Dict.get (annotations wrapper) n)
    ∧ clear_wrapper eval cleared = (Return cleared, cleared).
Proof.
  intros Hwf Hget. destruct wrapper as [d sig]. cbn [annotations] in *.
  pose proof Hget as Hget0. rewrite get_inject_annotations_eq in Hget.
  destruct (Typing.get_type_hints eval (Dict.remove d "return"))
    as [hints|e] eqn:Hh; [|done].
  injection Hget as <- <-.
  set (d0 := Dict.remove d "return") in *.
  set (inject := List.filter (λ h, has_marker h.2) hints) in *.
  set (names := Dict.keys inject).
  set (drop := λ x : string * Ann, negb (existsb (String.eqb x.1) names)).
  set (ret := match Dict.get d "return" with
              | Some value => [("return", value)]
              | None => []
              end).
  set (after := match Dict.get d "return" with
                | Some value => Dict.setitem d0 "return" value
                | None => d0
                end) in *.
  assert (Hafter : after = d0 ++ ret).
  { subst after ret. destruct (Dict.get d "return"); [|by rewrite app_nil_r].
    apply setitem_absent, get_remove_eq. }
  assert (Hequal : Dict.equal after d) by apply restored_equal.
  assert (Hsub : names `sublist_of` Dict.keys d0).
  { subst names inject. etrans; [apply keys_filter_sublist|].
    by rewrite (get_type_hints_keys _ _ _ Hh). }
  assert (Hnd : NoDup names).
  { apply (sublist_NoDup names (Dict.keys d0)); [|done].
    by apply well_formed_remove. }
  assert (Hkeys : ∀ n, n ∈ names → Dict.get d0 n ≠ None).
  { intros n Hn Hnone. apply get_None_keys in Hnone. apply Hnone.
    by apply (elem_of_sublist names). }
  assert (Hret : "return" ∉ names).
  { intros Hin. apply (Hkeys _ Hin), get_remove_eq. }
  assert (Hcontains : ∀ n, Dict.contains inject n
                           = existsb (String.eqb n) names).
  { intros n. unfold Dict.contains.
    destruct (Dict.get inject n) eqn:Hg.
    - symmetry. apply existsb_eqb.
      destruct (decide (n ∈ names)) as [|Hn]; [done|].
      apply get_None_keys in Hn. congruence.
    - apply get_None_keys in Hg.
      destruct (existsb (String.eqb n) names) eqn:E; [|done].
      by apply existsb_eqb in E. }
  assert (Hpresent : ∀ n, n ∈ names → Dict.get after n ≠ None).
  { intros n Hn. rewrite Hafter, get_app.
    pose proof (Hkeys n Hn). by destruct (Dict.get d0 n). }
  exists (MkFunction (List.filter drop after)
            (List.filter (λ p, negb (Dict.contains inject p)) sig)).
  split.
  { unfold clear_wrapper. cbn [annotations signature]. rewrite Hget0.
    fold names. by rewrite (delete_each_present after names Hnd Hpresent). }
  split; [done|]. split.
  { intros n. cbn [annotations]. unfold drop.
    rewrite (get_filter_keys (λ k, negb (existsb (String.eqb k) names))).
    rewrite Hcontains, Hequal. by destruct (existsb _ names). }
  assert (Hdropret : negb (existsb (String.eqb "return") names) = true).
  { destruct (existsb (String.eqb "return") names) eqn:E; [|done].
    by apply existsb_eqb in E. }
  assert (Hremove : Dict.remove (List.filter drop after) "return"
                    = List.filter drop d0).
  { rewrite <- filter_remove. f_equal. rewrite Hafter, !remove_filter.
    rewrite List.filter_app, <- !remove_filter.
    rewrite (remove_absent d0) by apply get_remove_eq.
    subst ret. destruct (Dict.get d "return"); cbn; by rewrite app_nil_r. }
  assert (Hgetret : Dict.get (List.filter drop after) "return"
                    = Dict.get d "return").
  { unfold drop.
    rewrite (get_filter_keys (λ k, negb (existsb (String.eqb k) names))).
    by rewrite Hdropret, Hequal. }
  assert (Hnone : List.filter (λ h : string * Ann, has_marker h.2)
                    (List.filter drop hints) = []).
  { rewrite filter_filter. apply filter_false. intros [n h] Hin. cbn.
    destruct (has_marker h) eqn:Hm; [|by rewrite andb_false_r].
    rewrite andb_true_r. unfold drop. cbn. apply negb_false_iff.
    apply existsb_eqb, list_elem_of_fmap. exists (n, h). split; [done|].
    by apply elem_of_filter. }
  assert (Hrestored : match Dict.get d "return" with
                      | Some value =>
                          Dict.setitem (List.filter drop d0) "return" value
                      | None => List.filter drop d0
                      end = List.filter drop after).
  { rewrite Hafter, List.filter_app. subst ret.
    destruct (Dict.get d "return") as [v|]; cbn.
    - replace (drop ("return", v)) with true by (symmetry; exact Hdropret).
      apply setitem_absent. unfold drop.
      rewrite (get_filter_keys (λ k, negb (existsb (String.eqb k) names))).
      rewrite Hdropret. apply get_remove_eq.
    - by rewrite app_nil_r. }
  unfold clear_wrapper. cbn [annotations signature].
  rewrite get_inject_annotations_eq, Hremove, Hgetret.
  unfold drop at 1.
  rewrite (get_type_hints_filter eval
             (λ k, negb (existsb (String.eqb k) names)) d0 hints Hh).
  fold drop. rewrite Hnone, Hrestored. cbn.
  by rewrite (filter_true (λ _ : string, true)).
Qed.

(** X18: [is_context_manager_function] looks through [__wrapped__]: the
    answer is that of the function at the end of the chain, whatever the
    wrappers themselves are. *)
Theorem wrappers_are_seen_through func :
  is_context_manager_function func = is_generator_shaped (innermost func)
  ∧ ∀ g a, is_context_manager_function (Wrapping g a func)
           = is_context_manager_function func.
Proof.
  split; [|done]. induction func as [g a | g a inner IH]; [done|].
  exact IH.
Qed.

End AnnotationFacts.

(** ** The type hints of a provider *)

Module HintFacts.
Import Providers Annotations ProviderHints.








End HintFacts.

(** ** The properties above at concrete objects *)

Module Witnesses.
Import Providers Annotations ProviderHints Scenarios Examples.


(** A [KeyError] raised inside [_get_type_hints] is reported as a missing
    return type, and a factory without [__qualname__] gets the
    [AttributeError] of the message instead of the [ValueError]. *)
Lemma failures_inside_the_except_block :
  _guess_return_type unhintable
  = Raise (ValueError (no_return_type "unhintable") (Some lookup_failure))
  ∧ _guess_return_type callable_instance
    = Raise (AttributeError "__qualname__" (Some (KeyError "return" None))).
Proof. split; reflexivity. Qed.

Lemma bare_generator_annotation_raises_IndexError_witness :
  hinted_return_type items = Return (AAlias OIterator [])
  ∧ Scoped.__init__ Scoped items None = Raise (IndexError None).
Proof.
  split; [reflexivity|].
  apply (ProviderExtras.bare_generator_annotation_raises_IndexError
           items OIterator); [reflexivity | discriminate | reflexivity |].
  left. split; reflexivity.
Defined.

Lemma guess_unwraps_generators_of_the_same_kind_witness :
  hinted_return_type sessions
  = Return (AAlias OIterator [AClass "Session"])
  ∧ _guess_return_type sessions = Return (AClass "Session").
Proof.
  split; [reflexivity|].
  apply (ProviderExtras.guess_unwraps_generators_of_the_same_kind
           sessions OIterator (AClass "Session") []);
    [reflexivity | discriminate | reflexivity].
Defined.

Lemma close_and_aclose_unwind_their_own_stack_witness :
  let entered := entered_async [async_calm 2] in
  (InstanceStore.close None entered).1 = (Return (), [])
  ∧ (InstanceStore.aclose None (InstanceStore.close None entered).2).1.2
    = [2].
Proof.
  intros entered.
  destruct (StoreExtras.close_and_aclose_unwind_their_own_stack
              (K:=string) None None InstanceStore.__init__ (async_calm 2)
              (Plain 2) entered) as (Hclose & _ & _ & Haclose);
    [by right | reflexivity |].
  split; [exact Hclose | exact Haclose].
Defined.

Lemma entering_then_closing_restores_the_store_witness :
  (InstanceStore.close None (entered_sync [calm 1])).2
  = InstanceStore.__init__.
Proof.
  destruct (StoreExtras.entering_then_closing_restores_the_store
              (K:=string) None InstanceStore.__init__ (calm 1)
              (Return (Plain 1)) (entered_sync [calm 1]))
    as [_ Hrestored]; [reflexivity | reflexivity |].
  by apply Hrestored.
Defined.

Lemma cache_is_keyed_by_type_witness :
  InstanceStore.get
    (InstanceStore.add InstanceStore.__init__ counter_provider (Plain 1))
    transient_counter
  = Some (Plain 1).
Proof.
  destruct (StoreExtras.cache_is_keyed_by_type
              InstanceStore.__init__ counter_provider transient_counter
              (Plain 1) (Plain 2)) as (Hget & _);
    [reflexivity | discriminate | exact Hget].
Defined.

Lemma lock_operations_touch_one_lock_witness :
  ∃ held,
    SingletonStore.acquire (K:=string) ViaLock SingletonStore.__init__
      counter_provider = Some held
    ∧ base held = base SingletonStore.__init__
    ∧ SingletonStore.locked ViaSyncLock held "Counter" = false.
Proof.
  eexists. split; [reflexivity|].
  destruct (SingletonExtras.lock_operations_touch_one_lock
              (K:=string) ViaLock SingletonStore.__init__ counter_provider
              _ (or_intror (or_introl eq_refl))) as [Hbase Hlocks].
  split; [exact Hbase|]. rewrite Hlocks; [reflexivity|]. by left.
Defined.

Lemma lock_excludes_only_its_own_path_witness :
  ∃ held,
    SingletonStore.enter (K:=string) ViaLock SingletonStore.__init__
      counter_provider = Some (true, held)
    ∧ SingletonStore.enter ViaLock held counter_provider = None
    ∧ ∃ held', SingletonStore.enter ViaSyncLock held counter_provider
               = Some (true, held').
Proof.
  eexists. split; [reflexivity|].
  match goal with |- SingletonStore.enter _ ?held _ = None ∧ _ =>
    destruct (SingletonExtras.lock_excludes_only_its_own_path
                (K:=string) ViaLock SingletonStore.__init__
                counter_provider held eq_refl) as (Hwait & Hother & _)
  end.
  split; [exact Hwait|]. apply Hother; [discriminate | reflexivity].
Defined.

Lemma remove_annotation_restores_witness :
  (remove_annotation (annotations func) "return" (λ d, (Return (), d))).2
  = annotations func
  ∧ Dict.get
      (remove_annotation (annotations func) "return"
         (λ d, (Raise (A:=unit) missing_name, d))).2 "return"
    = None.
Proof.
  destruct (AnnotationFacts.remove_annotation_restores
              (annotations func) "return" (λ d, (Return (), d))
              (Return ()) eq_refl) as (_ & _ & Hafter).
  destruct (AnnotationFacts.remove_annotation_restores
              (annotations func) "return"
              (λ d, (Raise (A:=unit) missing_name, d))
              (Raise missing_name) eq_refl) as (_ & _ & Hlost).
  split; [exact Hafter | exact Hlost].
Defined.

Lemma clear_wrapper_strips_the_marked_parameters_witness :
  ∃ cleared,
    clear_wrapper evaluated func = (Return cleared, cleared)
    ∧ signature cleared = ["a"]
    ∧ Dict.get (annotations cleared) "b" = None
    ∧ Dict.get (annotations cleared) "a" = Some (AClass "int").
Proof.
  destruct (AnnotationFacts.clear_wrapper_strips_the_marked_parameters
              evaluated func
              [("b", AAnnotated (AClass "int") [AInjectClass]);
               ("c", AAnnotated (AClass "int") [AInject 1])]
              (annotations func))
    as (cleared & Hclear & Hsig & Hget & _).
  - unfold Dict.well_formed. cbn.
    apply (bool_decide_unpack (NoDup ["a"; "b"; "c"; "return"])).
    vm_compute. exact I.
  - reflexivity.
  - exists cleared. split; [exact Hclear|]. split; [exact Hsig|].
    split; [exact (Hget "b") | exact (Hget "a")].
Defined.

Lemma public_get_inject_annotations_keeps_return_witness :
  PublicUtils.get_inject_annotations evaluated marked_return
  = Return [("return", AAnnotated (AClass "int") [AInjectClass])]
  ∧ (get_inject_annotations evaluated marked_return).1 = Return [].
Proof.
  split; [reflexivity|].
  exact (proj1 (AnnotationFacts.public_get_inject_annotations_keeps_return
                  evaluated marked_return _ eq_refl)).
Defined.


Lemma failed_enter_registers_nothing_witness :
  InstanceStore.enter_sync_context (entered_sync [calm 1]) (refusing 2)
  = (Raise boom_error, entered_sync [calm 1])
  ∧ isinstance_ContextDecorator (refusing 2) = true.
Proof.
  split; [reflexivity|].
  destruct (StoreExtras.failed_enter_registers_nothing
              (K:=string) (entered_sync [calm 1]) (refusing 2) boom_error
              (entered_sync [calm 1])) as [Hsync _].
  exact (proj1 (proj2 (Hsync eq_refl))).
Defined.

Lemma harmless_releases_never_make_close_raise_witness :
  (InstanceStore.__exit__ None (entered_sync [calm 1; swallowing 2])
     (Some boom_error)).1.1
  = Return ().
Proof.
  destruct (StoreExtras.harmless_releases_never_make_close_raise
              (K:=string) None (entered_sync [calm 1; swallowing 2])
              (Some boom_error)) as [Hexit _].
  apply Hexit; [reflexivity|].
  repeat constructor; intros x; eexists; reflexivity.
Defined.

(** The assertion of [tests/utils/test_utils.py], which imports the
    function of [aioinject/utils.py]; the one of [aioinject/_utils.py]
    answers the same on this function. *)
Lemma test_inject_annotations_returns_all_inject_markers :
  PublicUtils.get_inject_annotations evaluated (annotations func)
  = Return [("b", AAnnotated (AClass "int") [AInjectClass]);
            ("c", AAnnotated (AClass "int") [AInject 1])]
  ∧ (get_inject_annotations evaluated (annotations func)).1
    = Return [("b", AAnnotated (AClass "int") [AInjectClass]);
              ("c", AAnnotated (AClass "int") [AInject 1])].
Proof. split; reflexivity. Qed.

End Witnesses.
